(** * punchh-mcp: the session gateway of [server.ts], verified

    The repository holds two revisions of the same Express + MCP server:
    [src/server.ts] and [src/unnamed/part_000].  Both register two read-only tools over the
    Punchh API, redact two PII fields of the upstream answer and keep a
    process-wide record [transports] from session identifier to transport.
    They differ in five places: the second file puts a bearer-token
    middleware in front of every route, escapes the identifier in the URL
    of [punchh.listTransactions], guards the element of the redaction loop
    with [?.], gives a new transport no [onclose] hook and returns the
    payload as text.  What the files share is embedded once; what differs
    is embedded per file, in [Module ServerTs] and [Module Part000]. *)

From Stdlib Require Import ZArith Lia List String Ascii Bool.
From Stdlib Require Import Floats.SpecFloat.
From Stdlib Require Import DecimalString DecimalZ.
From stdpp Require Import gmap strings list.

Local Open Scope string_scope.

(** ** JavaScript values as the handlers see them *)

(** What [await r.json()] yields: a tree without sharing.  Numbers are
    IEEE doubles ([spec_float]); an object keeps its properties in
    insertion order. *)
Unset Elimination Schemes.
Inductive json : Type :=
| JNull
| JBool (b : bool)
| JNum (n : spec_float)
| JStr (s : string)
| JArr (elems : list json)
| JObj (props : list (string * json)).
Set Elimination Schemes.

(** A JavaScript value is a [json] or [undefined]. *)
Abbreviation value := (option json).
Abbreviation undefined := (@None json).

Inductive JsError : Type :=
| TypeError                      (* property of null/undefined, call of a non-function, not iterable *)
| SyntaxError                    (* r.json() on a body that is not JSON *)
| FetchError                     (* node-fetch: the request itself failed *)
| Error (message : string).      (* new Error(message) *)

(** A computation either returns or throws. *)
Inductive result (A : Type) : Type :=
| Ok (a : A)
| Throw (e : JsError).
Arguments Ok {A} a.
Arguments Throw {A} e.

#[global] Instance result_bind : MBind result :=
  fun A B k m =>
    match m with
    | Ok a => k a
    | Throw e => Throw e
    end.

#[global] Instance result_ret : MRet result := @Ok.

(** [ToBoolean]: null, undefined, false, +0, -0, NaN and the empty string
    are falsy, everything else (every object and array too) is truthy. *)
Definition truthy (v : value) : bool :=
  match v with
  | None => false
  | Some JNull => false
  | Some (JBool b) => b
  | Some (JNum (S754_zero _)) => false
  | Some (JNum S754_nan) => false
  | Some (JNum _) => true
  | Some (JStr s) => negb (String.eqb s "")
  | Some (JArr _) => true
  | Some (JObj _) => true
  end.

(** Own data property of an object, first binding of the key. *)
Fixpoint own (props : list (string * json)) (k : string) : value :=
  match props with
  | [] => undefined
  | (k', v) :: rest => if String.eqb k' k then Some v else own rest k
  end.

(** [o[k] = x] on an object: an existing property keeps its position, a
    new one is appended. *)
Fixpoint put (props : list (string * json)) (k : string) (x : json)
  : list (string * json) :=
  match props with
  | [] => [(k, x)]
  | (k', v) :: rest =>
      if String.eqb k' k then (k', x) :: rest else (k', v) :: put rest k x
  end.

(** [v[k]] for a [v] that is neither null nor undefined.  The handlers
    read the keys email, phone, customer and transactions only; none of
    them is a property of a boolean, number, string or array. *)
Definition get (v : json) (k : string) : value :=
  match v with
  | JObj props => own props k
  | _ => undefined
  end.

(** [v.k]: throws on null and undefined. *)
Definition member (v : value) (k : string) : result value :=
  match v with
  | None | Some JNull => Throw TypeError
  | Some o => Ok (get o k)
  end.

(** [v?.k]: undefined on null and undefined. *)
Definition opt_member (v : value) (k : string) : value :=
  match v with
  | None | Some JNull => undefined
  | Some o => get o k
  end.

(** [o.k = x] in strict mode (the files are ES modules).  A named property
    set on an array is not part of its JSON content. *)
Definition assign (o : value) (k : string) (x : json) : result json :=
  match o with
  | None | Some JNull => Throw TypeError
  | Some (JObj props) => Ok (JObj (put props k x))
  | Some (JArr elems) => Ok (JArr elems)
  | Some _ => Throw TypeError
  end.

(** The elements a [for (const t of v)] loop visits: those of an array,
    the characters of a string; anything else is not iterable. *)
Definition iterate (v : json) : result (list json) :=
  match v with
  | JArr elems => Ok elems
  | JStr s => Ok (map (fun c => JStr (String c "")) (list_ascii_of_string s))
  | _ => Throw TypeError
  end.

(** [`${n}`] for an integral number. *)
Definition Number_toString (n : Z) : string :=
  NilZero.string_of_int (Z.to_int n).

Definition Number_parse (s : string) : option Z :=
  option_map Z.of_int (NilZero.int_of_string s).

(** ** The upstream client: what both files share *)

(** [process.env.PUNCHH_BASE_URL!] and [process.env.PUNCHH_TOKEN!], read
    once when the module is loaded. *)
Record Env : Type := {
  PUNCHH_BASE : string;
  PUNCHH_TOKEN : string
}.

(** The part of a node-fetch [Response] the handlers use.  [payload] is
    the parsed body, [None] when the body is not JSON. *)
Record Response : Type := {
  status : Z;
  payload : option json
}.

(** [r.ok]: the status is in the range 200-299. *)
Definition ok (r : Response) : bool :=
  (200 <=? status r)%Z && (status r <? 300)%Z.

(** [await r.json()] *)
Definition r_json (r : Response) : result json :=
  match payload r with
  | Some data => Ok data
  | None => Throw SyntaxError
  end.

(** [fetch(url, { headers: { Authorization } })]: the upstream is a
    function of the URL and of the credential; a network failure rejects. *)
Definition Fetch : Type := string -> string -> result Response.

(** [encodeURIComponent] over the UTF-8 bytes of the identifier: letters,
    digits and [- _ . ! ~ * ' ( )] stay, every other byte becomes [%XX]. *)
Definition unreserved (c : ascii) : bool :=
  let n := nat_of_ascii c in
  ((65 <=? n)%nat && (n <=? 90)%nat) || ((97 <=? n)%nat && (n <=? 122)%nat)
  || ((48 <=? n)%nat && (n <=? 57)%nat)
  || existsb (Ascii.eqb c) (list_ascii_of_string "-_.!~*'()").

Definition hex_digit (digits : string) (n : nat) : ascii :=
  match String.get n digits with
  | Some c => c
  | None => "0"%char
  end.

Definition percent (c : ascii) : string :=
  let n := nat_of_ascii c in
  String "%" (String (hex_digit "0123456789ABCDEF" (n / 16))
             (String (hex_digit "0123456789ABCDEF" (n mod 16)) "")).

Fixpoint encodeURIComponent (s : string) : string :=
  match s with
  | EmptyString => ""
  | String c rest =>
      (if unreserved c then String c "" else percent c)
        +:+ encodeURIComponent rest
  end.

(** The two masking values. *)
Definition email_mask : json := JStr "redacted@example.com".
Definition phone_mask : json := JStr "**********".

(** What a tool hands back: [{ content: [{ type: 'json', json: data }] }]
    in [server.ts], [{ content: [{ type: 'text', text: JSON.stringify(data) }] }]
    in the other file. *)
Inductive Content : Type :=
| JsonContent (data : json)
| TextContent (stringified : json).

(** [if (data?.k) data.k = mask;] on the top-level payload. *)
Definition redact_top (k : string) (mask : json) (data : json) : result json :=
  if truthy (opt_member (Some data) k) then assign (Some data) k mask
  else Ok data.

(** Lines 58-59 of [server.ts], 49-50 of the other file. *)
Definition redact_customer (data : json) : result json :=
  data1 ← redact_top "email" email_mask data;
  redact_top "phone" phone_mask data1.

(** [t.customer.k = x]: the customer object is updated in place, inside
    [t].  (When [t] is not an object [t.customer] is undefined and the
    assignment has already thrown.) *)
Definition assign_customer (t : json) (k : string) (x : json) : result json :=
  c ← member (Some t) "customer";
  c' ← assign c k x;
  match t with
  | JObj props => Ok (JObj (put props "customer" c'))
  | _ => Ok t
  end.

(** [for (const t of data?.transactions ?? []) body(t)]: the elements are
    updated in place inside [data]; a string has nothing to update. *)
Definition for_transactions (body : json -> result json) (data : json)
  : result json :=
  match opt_member (Some data) "transactions" with
  | None | Some JNull => Ok data
  | Some ts =>
      elems ← iterate ts;
      elems' ← mapM body elems;
      match ts, data with
      | JArr _, JObj props => Ok (JObj (put props "transactions" (JArr elems')))
      | _, _ => Ok data
      end
  end.

(** The [punchh.getCustomer] handler, the same in both files up to the
    shape of the result. *)
Definition getCustomer_url (env : Env) (customer_id : string) : string :=
  PUNCHH_BASE env +:+ "/api/v2/customers/" +:+ encodeURIComponent customer_id.

Definition getCustomer_with (wrap : json -> Content) (env : Env) (fetch : Fetch)
    (customer_id : string) : result Content :=
  let url := getCustomer_url env customer_id in
  r ← fetch url ("Bearer " +:+ PUNCHH_TOKEN env);
  if negb (ok r) then Throw (Error ("Punchh error " +:+ Number_toString (status r)))
  else
    data ← r_json r;
    data' ← redact_customer data;
    Ok (wrap data').

(** ** The operation registry *)

(** The zod builders the two [inputSchema]s are written with.  A builder
    chain such as [z.number().int().min(1).max(100).default(25)] becomes
    [z_default 25 (z_max 100 (z_min 1 (z_int z_number)))]. *)
Inductive ParamType : Type := TString | TNumber.

(** A normalized argument, as the handler receives it. *)
Inductive Arg : Type :=
| ArgString (s : string)
| ArgInt (n : Z)
| ArgNumber (f : spec_float).

Record Param : Type := {
  p_type : ParamType;
  p_int : bool;
  p_min : option Z;
  p_max : option Z;
  p_default : option Arg
}.

Definition z_string : Param :=
  {| p_type := TString; p_int := false; p_min := None; p_max := None;
     p_default := None |}.

Definition z_number : Param :=
  {| p_type := TNumber; p_int := false; p_min := None; p_max := None;
     p_default := None |}.

Definition z_int (p : Param) : Param :=
  {| p_type := p_type p; p_int := true; p_min := p_min p; p_max := p_max p;
     p_default := p_default p |}.

Definition z_min (lo : Z) (p : Param) : Param :=
  {| p_type := p_type p; p_int := p_int p; p_min := Some lo; p_max := p_max p;
     p_default := p_default p |}.

Definition z_max (hi : Z) (p : Param) : Param :=
  {| p_type := p_type p; p_int := p_int p; p_min := p_min p; p_max := Some hi;
     p_default := p_default p |}.

Definition z_default (d : Z) (p : Param) : Param :=
  {| p_type := p_type p; p_int := p_int p; p_min := p_min p; p_max := p_max p;
     p_default := Some (ArgInt d) |}.

Definition Schema : Type := list (string * Param).

(** Lines 23-26 of [server.ts], 62-65 of the other file. *)
Definition listTransactions_inputSchema : Schema :=
  [("customer_id", z_string);
   ("limit", z_default 25 (z_max 100 (z_min 1 (z_int z_number))))].

(** Line 50 of [server.ts], 41 of the other file. *)
Definition getCustomer_inputSchema : Schema :=
  [("customer_id", z_string)].













Record Operation : Type := {
  op_name : string;
  op_schema : Schema;
  op_handler : Env -> Fetch -> list (string * Arg) -> result Content
}.

Fixpoint arg (args : list (string * Arg)) (k : string) : option Arg :=
  match args with
  | [] => None
  | (k', a) :: rest => if String.eqb k' k then Some a else arg rest k
  end.

(** The destructuring [({ customer_id })] and [({ customer_id, limit })] of
    the normalized arguments. *)
Definition with_customer_id (h : string -> result Content)
    (args : list (string * Arg)) : result Content :=
  match arg args "customer_id" with
  | Some (ArgString customer_id) => h customer_id
  | _ => Throw TypeError
  end.

Definition with_customer_id_limit (h : string -> Z -> result Content)
    (args : list (string * Arg)) : result Content :=
  match arg args "customer_id", arg args "limit" with
  | Some (ArgString customer_id), Some (ArgInt limit) => h customer_id limit
  | _, _ => Throw TypeError
  end.



(** ** The session store *)

(** [randomUUID()] of node:crypto: 128 random bits with the version and
    variant bits of a version-4 UUID, printed as 8-4-4-4-12 lower-case
    hexadecimal digits.  The random bits are an input of the model. *)
Fixpoint hex_be (width : nat) (n : N) (acc : string) : string :=
  match width with
  | O => acc
  | S w =>
      hex_be w (n / 16)%N
        (String (hex_digit "0123456789abcdef" (N.to_nat (n mod 16)%N)) acc)
  end.

Definition randomUUID (entropy : N) : string :=
  let field (shift bits : N) := (N.shiftr entropy shift mod 2 ^ bits)%N in
  hex_be 8 (field 96 32)%N
    ("-" +:+ hex_be 4 (field 80 16)%N
    ("-" +:+ hex_be 4 (N.lor (field 64 12) 0x4000)%N
    ("-" +:+ hex_be 4 (N.lor (field 48 14) 0x8000)%N
    ("-" +:+ hex_be 12 (field 0 48)%N "")))).

(** Where a session stands (spec 4.4): uninitialized until its initiation
    handshake succeeds, then active, closed for good once its transport
    has closed. *)
Inductive SessionState : Type :=
| Uninitialized
| Active
| Closed.

(** The part of a [StreamableHTTPServerTransport] object the dispatcher
    relies on: its [sessionId] property and the state of its session. *)
Record Transport : Type := {
  sessionId : option string;
  session_state : SessionState
}.

(** Transports are objects: the route handler, the record and the hooks
    share them by reference.  A reference is the rank of the object among
    the transports constructed so far. *)
Abbreviation Ref := nat.

(** [transports]: a plain object literal [{}] used as a record from
    session identifier to transport.  Its own properties are a finite
    map; a read falls back to what every object literal inherits from
    [Object.prototype]. *)
Abbreviation Transports := (gmap string Ref).

(** What the route handler works on: every transport constructed so far,
    in the order of construction, and the record. *)
Record Server : Type := {
  objects : list Transport;
  transports : Transports
}.

(** The server as it starts: line 70 of [server.ts], line 83 of the
    other file. *)
Definition startup : Server := {| objects := []; transports := ∅ |}.

Definition Object_prototype : list string :=
  ["constructor"; "__defineGetter__"; "__defineSetter__"; "hasOwnProperty";
   "__lookupGetter__"; "__lookupSetter__"; "isPrototypeOf";
   "propertyIsEnumerable"; "toString"; "valueOf"; "__proto__";
   "toLocaleString"].

Inductive Slot : Type :=
| Own (transport : Ref)          (* a transport stored under the key *)
| Inherited                      (* a function or object of Object.prototype *)
| Missing.                       (* undefined *)

(** [transports[k]] *)
Definition lookup_session (transports : Transports) (k : string) : Slot :=
  match transports !! k with
  | Some transport => Own transport
  | None => if existsb (String.eqb k) Object_prototype then Inherited else Missing
  end.

Definition slot_truthy (s : Slot) : bool :=
  match s with
  | Missing => false
  | _ => true
  end.

(** Truthiness of a [string | undefined]. *)
Definition present (s : option string) : bool :=
  match s with
  | Some k => negb (String.eqb k "")
  | None => false
  end.

(** ** The protocol dispatcher *)

(** What [isInitializeRequest] tells apart in [req.body]. *)
Inductive Body : Type :=
| InitializeRequest
| CallTool (name : string) (arguments : list (string * json))
| OtherBody.

Definition isInitializeRequest (b : Body) : bool :=
  match b with
  | InitializeRequest => true
  | _ => false
  end.

(** An inbound POST /mcp, with what the SDK makes of it.  [connect] is
    the outcome of [await mcp.connect(transport)] for the transport
    constructed for this request: the one [McpServer] that every session
    shares takes the connection, or the call rejects (an SDK that allows
    a server one connection at a time rejects while an earlier transport
    is connected).  [negotiable] tells whether the transport will accept
    the HTTP envelope itself (its content negotiation and framing): the
    handshake of a well-formed initiation request can still fail there. *)
Record Request : Type := {
  mcp_session_id : option string;     (* req.headers['mcp-session-id'] *)
  body : Body;                        (* req.body *)
  connect : result unit;
  negotiable : bool
}.

Record JsonRpcError : Type := {
  code : Z;
  message : string
}.

Inductive Reply : Type :=
| HttpError (http_status : Z) (error : JsonRpcError)
    (* res.status(s).json({ jsonrpc: '2.0', error, id: null }) *)
| Initialized (sid : string)
    (* the handshake succeeded; the response carries mcp-session-id: sid *)
| Forwarded (transport : Ref) (b : Body)
    (* the body went into the session of this transport *)
| Refused
    (* the transport itself turned the envelope down *)
| Rejected (e : JsError).
    (* the async route handler rejected; no response was written *)

(** Line 88 of [server.ts], 98-102 of the other file. *)
Definition no_valid_session : Reply :=
  HttpError 400 {| code := -32000; message := "Bad Request: No valid session" |}.

(** Modelled from the spec: [transport.handleRequest(req, res, req.body)]
    (StreamableHTTPServerTransport belongs to the MCP SDK, which is not
    under src/).  A session goes from uninitialized to active on a
    successful initiation handshake: the transport draws its identifier
    from [sessionIdGenerator], becomes active and only then reports the
    identifier through [onsessioninitialized].  While active it takes
    any other body; everything else it turns down itself, and once closed
    it takes nothing any more.  (A reference always points at an object,
    lemma [run_registered_ok]: the last case is never reached.) *)
Definition handleRequest
    (onsessioninitialized : string -> Ref -> Transports -> Transports)
    (entropy : N) (transport : Ref) (req : Request) (server : Server)
  : Server * Reply :=
  match objects server !! transport with
  | Some this =>
      match session_state this with
      | Closed => (server, Refused)
      | Uninitialized =>
          if negotiable req && isInitializeRequest (body req) then
            let sid := randomUUID entropy in
            let this' := {| sessionId := Some sid; session_state := Active |} in
            ({| objects := <[transport := this']> (objects server);
                transports := onsessioninitialized sid transport (transports server) |},
             Initialized sid)
          else (server, Refused)
      | Active =>
          if negotiable req && negb (isInitializeRequest (body req))
          then (server, Forwarded transport (body req))
          else (server, Refused)
      end
  | None => (server, Rejected TypeError)
  end.

(** [new StreamableHTTPServerTransport({ ... })] *)
Definition new_transport : Transport :=
  {| sessionId := None; session_state := Uninitialized |}.

(** What happens to the server: a POST /mcp (with the random bits its
    generator would draw) or the closure of a transport (an explicit
    close or the end of its connection). *)
Inductive Event : Type :=
| Post (entropy : N) (req : Request)
| Close (transport : Ref).

(** The identifiers session creation has returned. *)
Definition issued (replies : list Reply) : list string :=
  omap (fun r => match r with Initialized sid => Some sid | _ => None end) replies.

(** The route handler [app.post('/mcp', ...)] is the same text in both
    files up to the two hooks a new transport is given. *)
Section Dispatcher.

Variable onsessioninitialized : string -> Ref -> Transports -> Transports.
Variable onclose : Transport -> Transports -> Transports.

Definition post_with (server : Server) (entropy : N) (req : Request)
  : Server * Reply :=
  let sessionId := mcp_session_id req in
  if present sessionId
     && slot_truthy (lookup_session (transports server) (default "" sessionId)) then
    match lookup_session (transports server) (default "" sessionId) with
    | Own transport =>
        handleRequest onsessioninitialized entropy transport req server
    | _ => (server, Rejected TypeError)
    end
  else if negb (present sessionId) && isInitializeRequest (body req) then
    (* the transport is constructed and its hooks are set: the record has
       not been touched yet *)
    let transport := length (objects server) in
    let server' := {| objects := (objects server ++ [new_transport])%list;
                      transports := transports server |} in
    match connect req with
    | Ok _ => handleRequest onsessioninitialized entropy transport req server'
    | Throw e => (server', Rejected e)
    end
  else (server, no_valid_session).

(** Modelled from the spec: the closure of a transport, a signal of the
    SDK (4.4: active to closed on an explicit close or on termination of
    the connection).  The session is closed for good; then the hook that
    the route handler gave the transport runs, reading the transport as
    it is then. *)
Definition close_with (server : Server) (transport : Ref) : Server :=
  match objects server !! transport with
  | Some this =>
      let this' := {| sessionId := sessionId this; session_state := Closed |} in
      {| objects := <[transport := this']> (objects server);
         transports := onclose this' (transports server) |}
  | None => server
  end.

(** The server's state with its history: the objects, the record and
    every reply written so far. *)
Definition step_with (st : Server * list Reply) (ev : Event)
  : Server * list Reply :=
  match ev with
  | Post entropy req =>
      let '(server', reply) := post_with st.1 entropy req in
      (server', (st.2 ++ [reply])%list)
  | Close transport => (close_with st.1 transport, st.2)
  end.

Definition run_with (events : list Event) : Server * list Reply :=
  fold_left step_with events (startup, []).

End Dispatcher.

(** ** [src/server.ts] *)
Module ServerTs.

Definition getCustomer : Env -> Fetch -> string -> result Content :=
  getCustomer_with JsonContent.

(** Line 29: the identifier goes into the path as it is. *)
Definition listTransactions_url (env : Env) (customer_id : string) (limit : Z)
  : string :=
  PUNCHH_BASE env +:+ "/api/v2/customers/" +:+ customer_id
    +:+ "/transactions?limit=" +:+ Number_toString limit.

(** Lines 36-37: [if (t.customer?.k) t.customer.k = mask;] *)
Definition redact_field (k : string) (mask : json) (t : json) : result json :=
  c ← member (Some t) "customer";
  if truthy (opt_member c k) then assign_customer t k mask else Ok t.

Definition redact_transaction (t : json) : result json :=
  t1 ← redact_field "email" email_mask t;
  redact_field "phone" phone_mask t1.

Definition redact_transactions : json -> result json :=
  for_transactions redact_transaction.

Definition listTransactions (env : Env) (fetch : Fetch)
    (customer_id : string) (limit : Z) : result Content :=
  let url := listTransactions_url env customer_id limit in
  r ← fetch url ("Bearer " +:+ PUNCHH_TOKEN env);
  if negb (ok r) then Throw (Error ("Punchh error " +:+ Number_toString (status r)))
  else
    data ← r_json r;
    data' ← redact_transactions data;
    Ok (JsonContent data').

(** The tools in the order of the [registerTool] calls. *)
Definition registry : list Operation :=
  [ {| op_name := "punchh.listTransactions";
       op_schema := listTransactions_inputSchema;
       op_handler := fun env fetch =>
         with_customer_id_limit (listTransactions env fetch) |};
    {| op_name := "punchh.getCustomer";
       op_schema := getCustomer_inputSchema;
       op_handler := fun env fetch =>
         with_customer_id (getCustomer env fetch) |} ].

(** Line 81: [(sid) => { transports[sid] = transport; }].  [sid] is
    always a value of [randomUUID]. *)
Definition onsessioninitialized (sid : string) (transport : Ref)
    (transports : Transports) : Transports :=
  <[sid := transport]> transports.

(** Line 85:
    [() => { if (transport.sessionId) delete transports[transport.sessionId]; }] *)
Definition onclose (transport : Transport) (transports : Transports)
  : Transports :=
  if present (sessionId transport)
  then delete (default "" (sessionId transport)) transports
  else transports.

Definition post := post_with onsessioninitialized.
Definition close := close_with onclose.
Definition step := step_with onsessioninitialized onclose.
Definition run := run_with onsessioninitialized onclose.

End ServerTs.

(** ** [src/unnamed/part_000] *)

(** The requests modelled here are those the bearer-token middleware of
    this file (lines 14-24) lets through. *)
Module Part000.

Definition getCustomer : Env -> Fetch -> string -> result Content :=
  getCustomer_with TextContent.

(** Line 68: the identifier is escaped. *)
Definition listTransactions_url (env : Env) (customer_id : string) (limit : Z)
  : string :=
  PUNCHH_BASE env +:+ "/api/v2/customers/" +:+ encodeURIComponent customer_id
    +:+ "/transactions?limit=" +:+ Number_toString limit.

(** Lines 74-75: [if (t?.customer?.k) t.customer.k = mask;] *)
Definition redact_field (k : string) (mask : json) (t : json) : result json :=
  if truthy (opt_member (opt_member (Some t) "customer") k)
  then assign_customer t k mask else Ok t.

Definition redact_transaction (t : json) : result json :=
  t1 ← redact_field "email" email_mask t;
  redact_field "phone" phone_mask t1.

Definition redact_transactions : json -> result json :=
  for_transactions redact_transaction.

Definition listTransactions (env : Env) (fetch : Fetch)
    (customer_id : string) (limit : Z) : result Content :=
  let url := listTransactions_url env customer_id limit in
  r ← fetch url ("Bearer " +:+ PUNCHH_TOKEN env);
  if negb (ok r) then Throw (Error ("Punchh error " +:+ Number_toString (status r)))
  else
    data ← r_json r;
    data' ← redact_transactions data;
    Ok (TextContent data').

(** The tools in the order of the [registerTool] calls. *)
Definition registry : list Operation :=
  [ {| op_name := "punchh.getCustomer";
       op_schema := getCustomer_inputSchema;
       op_handler := fun env fetch =>
         with_customer_id (getCustomer env fetch) |};
    {| op_name := "punchh.listTransactions";
       op_schema := listTransactions_inputSchema;
       op_handler := fun env fetch =>
         with_customer_id_limit (listTransactions env fetch) |} ].

(** Line 94: [(newSid) => { transports[newSid] = transport!; }] *)
Definition onsessioninitialized (newSid : string) (transport : Ref)
    (transports : Transports) : Transports :=
  <[newSid := transport]> transports.

(** This file gives the transport no [onclose]: its closure leaves the
    record as it is. *)
Definition onclose (transport : Transport) (transports : Transports)
  : Transports :=
  transports.

Definition post := post_with onsessioninitialized.
Definition close := close_with onclose.
Definition step := step_with onsessioninitialized onclose.
Definition run := run_with onsessioninitialized onclose.

(** What a middleware does with a request: hand it to the next handler,
    or answer [res.status(s).json({ error })] itself. *)
Inductive Gate : Type :=
| Next
| Deny (http_status : Z) (error : string).

(** Lines 14-24, the middleware in front of every route.
    [MCP_SHARED_SECRET] is [process.env.MCP_SHARED_SECRET], [authorization]
    is [req.headers.authorization]; an unset variable prints as
    [undefined] in the template. *)
Definition auth (path : string) (MCP_SHARED_SECRET : option string)
    (authorization : option string) : Gate :=
  if String.eqb path "/healthz" then Next
  else
    let expected := "Bearer " +:+ default "undefined" MCP_SHARED_SECRET in
    if negb (present MCP_SHARED_SECRET) then Deny 500 "Server misconfigured"
    else if negb (match authorization with
                  | Some a => String.eqb a expected
                  | None => false
                  end)
    then Deny 401 "Unauthorized"
    else Next.






End Part000.

(** ** Vocabulary of the properties *)

(** The transport of the session [sid], active or closed. *)
Definition active (sid : string) : Transport :=
  {| sessionId := Some sid; session_state := Active |}.

Definition closed (sid : string) : Transport :=
  {| sessionId := Some sid; session_state := Closed |}.

(** The transport went through its handshake. *)
Definition initialized (this : Transport) : bool :=
  match session_state this with
  | Uninitialized => false
  | _ => true
  end.

(** The invariant of the server: under an identifier the record holds a
    transport that exists, went through its handshake and has this
    identifier as its own; every identifier in the record was issued, and
    every identifier issued is a value of the generator. *)
Definition registered_ok (st : Server * list Reply) : Prop :=
  (forall k transport,
      transports st.1 !! k = Some transport ->
      exists this,
        objects st.1 !! transport = Some this
        /\ sessionId this = Some k /\ initialized this = true
        /\ k ∈ issued st.2)
  /\ (forall k, k ∈ issued st.2 -> exists entropy, k = randomUUID entropy).

(** The server after a handshake that issued [sid]: the transport
    constructed for it is the newest object, active, and the record holds
    it under [sid]. *)
Definition with_session (server : Server) (sid : string) : Server :=
  {| objects := (objects server ++ [active sid])%list;
     transports := <[sid := length (objects server)]> (transports server) |}.

(** The server after an initiation request whose handshake failed: the
    transport constructed for it is there, in no record. *)
Definition with_unregistered (server : Server) : Server :=
  {| objects := (objects server ++ [new_transport])%list;
     transports := transports server |}.

(** [await mcp.connect(transport)] resolved. *)
Definition resolved (c : result unit) : bool :=
  match c with
  | Ok _ => true
  | Throw _ => false
  end.

(** The request asks for a new session and its handshake goes through. *)
Definition creates (req : Request) : bool :=
  negb (present (mcp_session_id req)) && isInitializeRequest (body req)
  && resolved (connect req) && negotiable req.

(** The identifiers that the handshakes among the events draw: the
    identifiers issued (lemma [run_issued_drawn]). *)
Definition drawn (events : list Event) : list string :=
  omap (fun ev => match ev with
                  | Post entropy req =>
                      if creates req then Some (randomUUID entropy) else None
                  | Close _ => None
                  end) events.

(** What [if (data?.k) data.k = mask;] makes of [data]. *)
Definition mask_top (k : string) (mask : json) (data : json) : json :=
  match data with
  | JObj props => if truthy (own props k) then JObj (put props k mask) else data
  | _ => data
  end.

(** The customer record after both assignments. *)
Definition masked (data : json) : json :=
  mask_top "phone" phone_mask (mask_top "email" email_mask data).

(** What [if (t?.customer?.k) t.customer.k = mask;] makes of [t]. *)
Definition mask_customer (k : string) (mask : json) (t : json) : json :=
  match t with
  | JObj props =>
      match own props "customer" with
      | Some c =>
          if truthy (get c k) then JObj (put props "customer" (mask_top k mask c))
          else t
      | None => t
      end
  | _ => t
  end.

(** One element of the list after the body of the loop. *)
Definition masked_transaction (t : json) : json :=
  mask_customer "phone" phone_mask (mask_customer "email" email_mask t).

(** Some object of the payload, at any depth, has a property [k]. *)
Fixpoint mentions (k : string) (v : json) : bool :=
  match v with
  | JArr elems => existsb (mentions k) elems
  | JObj props =>
      existsb (fun kv => String.eqb (fst kv) k || mentions k (snd kv)) props
  | _ => false
  end.

(** The loop can visit [data?.transactions ?? []]. *)
Definition iterable (v : value) : bool :=
  match v with
  | None | Some JNull | Some (JArr _) | Some (JStr _) => true
  | _ => false
  end.

(** What the loop of [punchh.listTransactions] makes of [data]. *)
Definition masked_transactions (data : json) : json :=
  match get data "transactions", data with
  | Some (JArr elems), JObj props =>
      JObj (put props "transactions" (JArr (map masked_transaction elems)))
  | _, _ => data
  end.

(** [v === null] *)
Definition is_null (v : json) : bool :=
  match v with
  | JNull => true
  | _ => false
  end.

(** No element the loop visits is [null]. *)
Definition null_free (v : value) : bool :=
  match v with
  | Some (JArr elems) => forallb (fun t => negb (is_null t)) elems
  | _ => true
  end.

(** Sample payloads. *)
Definition blank_customer : json :=
  JObj [("id", JStr "c1"); ("email", JStr ""); ("phone", JStr "")].

Definition blank_transactions : json :=
  JObj [("transactions", JArr [JObj [("id", JStr "t1"); ("customer", blank_customer)]])].

Definition null_transaction : json :=
  JObj [("transactions", JArr [JNull])].

Definition scalar_transactions : json :=
  JObj [("transactions", JNum (S754_finite false 5 0))].

Definition one_transaction_elems : list json :=
  [JObj [("id", JStr "t1");
         ("customer", JObj [("email", JStr "a@b.c"); ("phone", JStr "5551234")])]].

Definition one_transaction : json :=
  JObj [("transactions", JArr one_transaction_elems)].

(** Sample upstream answers, environment and requests. *)
Definition not_found : Response := {| status := 404; payload := Some JNull |}.

(** An escaped identifier is made of unreserved characters and [%]
    only. *)
Definition url_safe (s : string) : bool :=
  forallb (fun c => unreserved c || Ascii.eqb c "%") (list_ascii_of_string s).


Definition sandbox : Env :=
  {| PUNCHH_BASE := "https://sandbox.punchh.com"; PUNCHH_TOKEN := "t" |}.

Definition upstream_ok : Fetch :=
  fun _ _ => Ok {| status := 200; payload := Some one_transaction |}.

Definition hello : Request :=
  {| mcp_session_id := None; body := InitializeRequest; connect := Ok tt;
     negotiable := true |}.

Definition stray : Request :=
  {| mcp_session_id := None; body := CallTool "punchh.getCustomer" [];
     connect := Ok tt; negotiable := true |}.

(** The names of the properties of an object, in their order. *)
Definition keys (v : json) : list string :=
  match v with
  | JObj props => map fst props
  | _ => []
  end.

(** The value of a hexadecimal digit as [encodeURIComponent] writes it. *)
Definition unhex (c : ascii) : option nat :=
  let n := nat_of_ascii c in
  if ((48 <=? n)%nat && (n <=? 57)%nat) then Some (n - 48)%nat
  else if ((65 <=? n)%nat && (n <=? 70)%nat) then Some (n - 55)%nat
  else None.

(** Reading an escaped identifier back: [%XX] is one byte, any other
    character stands for itself. *)
Fixpoint unescape (s : string) : option string :=
  match s with
  | EmptyString => Some EmptyString
  | String c rest =>
      if Ascii.eqb c "%" then
        match rest with
        | String h (String l rest') =>
            match unhex h, unhex l, unescape rest' with
            | Some a, Some b, Some r =>
                Some (String (ascii_of_nat (16 * a + b)) r)
            | _, _, _ => None
            end
        | _ => None
        end
      else option_map (String c) (unescape rest)
  end.

(** [s] has no character [c]. *)
Definition without (c : ascii) (s : string) : bool :=
  forallb (fun x => negb (Ascii.eqb x c)) (list_ascii_of_string s).



(** A tool call sent under the session identifier [sid]. *)
Definition call_under (sid : string) : Request :=
  {| mcp_session_id := Some sid;
     body := CallTool "punchh.getCustomer" [("customer_id", JStr "c1")];
     connect := Ok tt; negotiable := true |}.

(** The event is a request (not a closure). *)
Definition is_post (ev : Event) : Prop :=
  match ev with
  | Post _ _ => True
  | Close _ => False
  end.

(** The payload a tool result carries. *)
Definition payload_of (c : Content) : json :=
  match c with
  | JsonContent data => data
  | TextContent stringified => stringified
  end.

(** A customer record shows no email and no phone but the masks: each
    field is absent, falsy or the masking value. *)
Definition redacted (c : json) : Prop :=
  (truthy (get c "email") = true -> get c "email" = Some email_mask)
  /\ (truthy (get c "phone") = true -> get c "phone" = Some phone_mask).

(** [v'] has the properties of [v] in the same order, with the same
    values except under the names [ks]. *)
Definition same_except (ks : list string) (v v' : json) : Prop :=
  keys v' = keys v /\ forall k, k ∉ ks -> get v' k = get v k.

(** [t'] is the transaction [t] with nothing changed but the email and
    the phone of its customer: an element without a customer (any element
    that is not an object) is [t] itself, and so is a customer without a
    truthy email or phone (any customer that is not an object). *)
Definition same_transaction (t t' : json) : Prop :=
  same_except ["customer"] t t'
  /\ (get t "customer" = None -> t' = t)
  /\ forall c,
       get t "customer" = Some c ->
       exists c', get t' "customer" = Some c'
                  /\ same_except ["email"; "phone"] c c'
                  /\ (truthy (get c "email") = false ->
                      truthy (get c "phone") = false -> c' = c).

(** A payload without email and phone anywhere. *)
Definition plain_payload : json :=
  JObj [("id", JStr "c1");
        ("transactions", JArr [JObj [("id", JStr "t1"); ("amount", JStr "12.50")]])].

(** * Properties *)

(** ** Identifiers *)

Lemma hex_be_length width n acc :
  String.length (hex_be width n acc) = (width + String.length acc)%nat.
Proof.
  revert n acc. induction width as [|w IH]; intros n acc; simpl; [done|].
  rewrite IH. simpl. lia.
Qed.

Lemma append_length (a b : string) :
  String.length (a +:+ b) = (String.length a + String.length b)%nat.
Proof. induction a as [|c a IH]; simpl; [done|]. by rewrite IH. Qed.

Lemma randomUUID_length entropy : String.length (randomUUID entropy) = 36%nat.
Proof.
  unfold randomUUID.
  repeat (rewrite hex_be_length || rewrite append_length). reflexivity.
Qed.

Lemma randomUUID_present entropy : present (Some (randomUUID entropy)) = true.
Proof.
  unfold present. apply negb_true_iff, String.eqb_neq. intros E.
  pose proof (randomUUID_length entropy) as L. rewrite E in L. discriminate.
Qed.

Lemma randomUUID_not_inherited entropy :
  existsb (String.eqb (randomUUID entropy)) Object_prototype = false.
Proof.
  destruct (existsb _ _) eqn:E; [|done].
  apply existsb_exists in E as (name & Hin & Heq).
  apply String.eqb_eq in Heq.
  pose proof (randomUUID_length entropy) as L. rewrite Heq in L.
  simpl in Hin. repeat (destruct Hin as [<- | Hin]; [discriminate L|]).
  destruct Hin.
Qed.

(** ** The record holds sessions of issued identifiers only *)

Lemma issued_snoc replies reply :
  issued (replies ++ [reply]) = (issued replies ++ issued [reply])%list.
Proof. unfold issued. apply omap_app. Qed.

Lemma drawn_cons entropy req events :
  drawn (Post entropy req :: events)
  = ((if creates req then [randomUUID entropy] else []) ++ drawn events)%list.
Proof. unfold drawn. simpl. by destruct (creates req). Qed.

Lemma fold_left_invariant {A B} (f : A -> B -> A) (P : A -> Prop) l a :
  (forall a b, P a -> P (f a b)) -> P a -> P (fold_left f l a).
Proof.
  intros Hstep. revert a. induction l as [|b l IH]; intros a Ha; simpl; [done|].
  apply IH, Hstep, Ha.
Qed.

Lemma initialized_active_or_closed this k :
  sessionId this = Some k -> initialized this = true ->
  this = active k \/ this = closed k.
Proof.
  destruct this as [sid [| |]]; simpl; intros -> Hinit; try done; auto.
Qed.

Section DispatcherFacts.

Variable onsessioninitialized : string -> Ref -> Transports -> Transports.
Variable onclose : Transport -> Transports -> Transports.

Hypothesis records :
  forall sid transport transports,
    onsessioninitialized sid transport transports = <[sid := transport]> transports.
Hypothesis only_removes :
  forall transport transports k v,
    onclose transport transports !! k = Some v -> transports !! k = Some v.

(** A transport that went through its handshake changes nothing in the
    server: it takes the body while it is active, and turns down
    everything else. *)
Lemma handleRequest_initialized entropy transport this req server :
  objects server !! transport = Some this ->
  initialized this = true ->
  handleRequest onsessioninitialized entropy transport req server
  = (server,
     match session_state this with
     | Active =>
         if negotiable req && negb (isInitializeRequest (body req))
         then Forwarded transport (body req) else Refused
     | _ => Refused
     end).
Proof.
  intros Hthis Hinit. unfold handleRequest. rewrite Hthis.
  unfold initialized in Hinit. destruct (session_state this); [done| |done].
  by destruct (negotiable req && negb (isInitializeRequest (body req))).
Qed.

(** The handshake of the transport just constructed. *)
Lemma handleRequest_new entropy req server :
  handleRequest onsessioninitialized entropy (length (objects server)) req
    (with_unregistered server)
  = if negotiable req && isInitializeRequest (body req)
    then (with_session server (randomUUID entropy), Initialized (randomUUID entropy))
    else (with_unregistered server, Refused).
Proof.
  unfold handleRequest, with_unregistered, with_session. cbn [objects transports].
  rewrite list_lookup_middle by done. cbn [new_transport session_state].
  destruct (negotiable req && isInitializeRequest (body req)); [|done].
  rewrite records.
  replace (length (objects server)) with (length (objects server) + 0)%nat at 1 by lia.
  by rewrite insert_app_r.
Qed.

(** A new session is registered under the identifier drawn for it. *)
Lemma initiation_registers server entropy req :
  present (mcp_session_id req) = false ->
  isInitializeRequest (body req) = true ->
  connect req = Ok tt ->
  negotiable req = true ->
  post_with onsessioninitialized server entropy req
    = (with_session server (randomUUID entropy), Initialized (randomUUID entropy)).
Proof.
  intros Hnone Hinit Hconn Hneg. unfold post_with.
  rewrite Hnone, Hinit, Hconn. cbn [andb negb].
  fold (with_unregistered server). by rewrite handleRequest_new, Hneg, Hinit.
Qed.

(** An initiation request whose handshake does not go through leaves a
    transport behind that is in no record. *)
Lemma initiation_fails server entropy req :
  present (mcp_session_id req) = false ->
  isInitializeRequest (body req) = true ->
  resolved (connect req) && negotiable req = false ->
  post_with onsessioninitialized server entropy req
    = (with_unregistered server,
       match connect req with
       | Ok _ => Refused
       | Throw e => Rejected e
       end).
Proof.
  intros Hnone Hinit Hfail. unfold post_with.
  rewrite Hnone, Hinit. cbn [andb negb]. fold (with_unregistered server).
  destruct (connect req) as [[]|e]; [|done].
  cbn [resolved andb] in Hfail. by rewrite handleRequest_new, Hfail.
Qed.

(** Without an identifier and without an initiation request nothing is
    created. *)
Lemma no_session_no_initiation server entropy req :
  present (mcp_session_id req) = false ->
  isInitializeRequest (body req) = false ->
  post_with onsessioninitialized server entropy req = (server, no_valid_session).
Proof.
  intros Hnone Hinit. unfold post_with. rewrite Hnone, Hinit. simpl.
  reflexivity.
Qed.

(** A request under an identifier, in a state where the record is sound:
    the server is left as it is. *)
Lemma identified_request st entropy req sid :
  registered_ok st ->
  mcp_session_id req = Some sid ->
  sid <> "" ->
  post_with onsessioninitialized st.1 entropy req
  = (st.1,
     match lookup_session (transports st.1) sid with
     | Own transport =>
         match session_state <$> objects st.1 !! transport with
         | Some Active =>
             if negotiable req && negb (isInitializeRequest (body req))
             then Forwarded transport (body req) else Refused
         | _ => Refused
         end
     | Inherited => Rejected TypeError
     | Missing => no_valid_session
     end).
Proof.
  intros [Hkeys _] Hsid Hne. unfold post_with. rewrite Hsid.
  change (default "" (Some sid)) with sid.
  assert (present (Some sid) = true) as ->.
  { unfold present. by apply negb_true_iff, String.eqb_neq. }
  cbn [andb negb].
  destruct (lookup_session (transports st.1) sid) as [transport| |] eqn:Hslot;
    cbn [slot_truthy]; [|done..].
  assert (transports st.1 !! sid = Some transport) as Hk.
  { unfold lookup_session in Hslot. destruct (transports st.1 !! sid); [congruence|].
    by destruct (existsb _ _). }
  destruct (Hkeys _ _ Hk) as (this & Hthis & _ & Hinit & _).
  rewrite (handleRequest_initialized _ _ this) by done. rewrite Hthis. cbn [fmap option_fmap option_map].
  by destruct (session_state this).
Qed.

(** Every request, in such a state: a handshake that goes through
    registers the new transport; anything else leaves the record as it
    is and issues nothing. *)
Lemma post_cases st entropy req :
  registered_ok st ->
  post_with onsessioninitialized st.1 entropy req
  = (if creates req
     then (with_session st.1 (randomUUID entropy), Initialized (randomUUID entropy))
     else post_with onsessioninitialized st.1 entropy req)
  /\ (creates req = false ->
      issued [(post_with onsessioninitialized st.1 entropy req).2] = []
      /\ transports (post_with onsessioninitialized st.1 entropy req).1
         = transports st.1
      /\ ((post_with onsessioninitialized st.1 entropy req).1 = st.1
          \/ (post_with onsessioninitialized st.1 entropy req).1
             = with_unregistered st.1)).
Proof.
  intros Hok. unfold creates.
  destruct (present (mcp_session_id req)) eqn:Hsid; cbn [negb andb].
  - split; [done|]. intros _.
    destruct (mcp_session_id req) as [sid|] eqn:Hreq; [|done].
    assert (sid <> "") as Hne.
    { intros ->. done. }
    rewrite (identified_request st entropy req sid) by done. cbn [fst snd].
    split; [|auto].
    destruct (lookup_session _ _) as [transport| |]; [|done..].
    destruct (session_state <$> _) as [[| |]|]; try done.
    by destruct (negotiable req && negb (isInitializeRequest (body req))).
  - destruct (isInitializeRequest (body req)) eqn:Hinit; cbn [andb].
    + destruct (resolved (connect req) && negotiable req) eqn:Hgo.
      * apply andb_prop in Hgo as [Hconn Hneg].
        destruct (connect req) as [[]|e] eqn:Hc; [|done].
        split; [|done]. by apply initiation_registers.
      * split; [done|]. intros _. rewrite initiation_fails by done. cbn [fst snd].
        split; [by destruct (connect req)|]. split; [done|auto].
    + split; [done|]. intros _. rewrite no_session_no_initiation by done.
      cbn [fst snd]. auto.
Qed.

Lemma with_unregistered_ok server replies :
  registered_ok (server, replies) -> registered_ok (with_unregistered server, replies).
Proof.
  intros [Hkeys Huuid]. split; [|done]. cbn [fst snd] in *. intros k transport Hk.
  destruct (Hkeys _ _ Hk) as (this & Hthis & ?). exists this.
  split; [|done]. by apply lookup_app_l_Some.
Qed.

Lemma step_registered_ok st ev :
  registered_ok st -> registered_ok (step_with onsessioninitialized onclose st ev).
Proof.
  intros Hok. pose proof Hok as [Hkeys Huuid].
  destruct ev as [entropy req|transport]; cbn [step_with].
  - destruct (post_cases st entropy req Hok) as [Hpost Hnot].
    destruct (post_with onsessioninitialized st.1 entropy req) as [server' reply] eqn:E.
    destruct (creates req).
    + injection Hpost as -> ->. split; cbn [fst snd]; intros k; rewrite issued_snoc.
      * intros r. cbn [with_session transports objects issued omap].
        destruct (decide (randomUUID entropy = k)) as [<-|Hne].
        -- rewrite lookup_insert_eq. intros [= <-]. exists (active (randomUUID entropy)).
           split; [by apply list_lookup_middle|]. split; [done|]. split; [done|].
           apply elem_of_app. right. by apply list_elem_of_singleton.
        -- rewrite lookup_insert_ne by done. intros Hk.
           destruct (Hkeys _ _ Hk) as (this & Hthis & Hsid & Hinit & Hin).
           exists this. split; [by apply lookup_app_l_Some|].
           split; [done|]. split; [done|]. apply elem_of_app. by left.
      * rewrite elem_of_app. intros [Hin|Hin]; [by apply Huuid|].
        apply list_elem_of_singleton in Hin. eauto.
    + destruct (Hnot eq_refl) as (Hnone & Hrec & Hobj). cbn [fst snd] in *.
      assert (registered_ok (server', st.2)) as [Hkeys' Huuid'].
      { destruct Hobj as [->| ->]; [by destruct st|].
        apply with_unregistered_ok. by destruct st. }
      split; cbn [fst snd]; intros k; rewrite issued_snoc, Hnone, app_nil_r;
        [apply Hkeys'|apply Huuid'].
  - unfold close_with. destruct (objects st.1 !! transport) as [this|] eqn:Hthis;
      [|by destruct st].
    split; [|done]. cbn [fst snd objects transports]. intros k r Hk.
    apply only_removes in Hk.
    destruct (Hkeys _ _ Hk) as (this0 & Hthis0 & Hsid & Hinit & Hin).
    destruct (decide (transport = r)) as [->|Hne].
    + eexists. split; [apply list_lookup_insert_eq; by eapply lookup_lt_Some|].
      cbn [sessionId]. split; [congruence|done].
    + exists this0. by rewrite list_lookup_insert_ne.
Qed.

Lemma startup_registered_ok : registered_ok (startup, []).
Proof.
  split; cbn [fst snd startup transports].
  - intros k r. by rewrite lookup_empty.
  - intros k Hk. by apply elem_of_nil in Hk.
Qed.

Lemma run_registered_ok events :
  registered_ok (run_with onsessioninitialized onclose events).
Proof.
  apply (fold_left_invariant _ registered_ok);
    [apply step_registered_ok|apply startup_registered_ok].
Qed.



(** What a read of the record finds under a registered identifier. *)
Lemma registered_slot st k transport :
  transports st !! k = Some transport -> lookup_session (transports st) k = Own transport.
Proof. intros Hk. unfold lookup_session. by rewrite Hk. Qed.

(** An identifier the server has issued is a value of the generator: not
    empty, and no inherited name. *)
Lemma issued_shape events k :
  k ∈ issued (run_with onsessioninitialized onclose events).2 ->
  k <> "" /\ existsb (String.eqb k) Object_prototype = false.
Proof.
  intros Hin. destruct (run_registered_ok events) as [_ Huuid].
  destruct (Huuid _ Hin) as [entropy ->]. split; [|apply randomUUID_not_inherited].
  pose proof (randomUUID_present entropy) as Hp. unfold present in Hp.
  by apply negb_true_iff, String.eqb_neq in Hp.
Qed.

(** An identifier that was never issued, is not empty and is no
    inherited name finds no session. *)
Lemma unknown_identifier_rejected events sid entropy req :
  let st := run_with onsessioninitialized onclose events in
  mcp_session_id req = Some sid ->
  sid ∉ issued st.2 ->
  sid <> "" ->
  existsb (String.eqb sid) Object_prototype = false ->
  lookup_session (transports st.1) sid = Missing
  /\ post_with onsessioninitialized st.1 entropy req = (st.1, no_valid_session).
Proof.
  intros st Hsid Hfresh Hne Hproto.
  assert (Hmiss : lookup_session (transports st.1) sid = Missing).
  { unfold lookup_session.
    destruct (transports st.1 !! sid) as [t|] eqn:Hk; [|by rewrite Hproto].
    destruct (run_registered_ok events) as [Hkeys _].
    apply Hkeys in Hk as (? & _ & _ & _ & Hin). by destruct Hfresh. }
  split; [done|].
  rewrite (identified_request st entropy req sid); [by rewrite Hmiss| |done..].
  apply run_registered_ok.
Qed.

(** A name every object literal inherits is taken for a session. *)
Lemma inherited_name_rejects events name entropy req :
  let st := run_with onsessioninitialized onclose events in
  mcp_session_id req = Some name ->
  name ∈ Object_prototype ->
  (name ∉ issued st.2)
  /\ post_with onsessioninitialized st.1 entropy req = (st.1, Rejected TypeError).
Proof.
  intros st Hname Hin.
  destruct (run_registered_ok events) as [Hkeys Huuid]. fold st in Hkeys, Huuid.
  assert (Hlen : String.length name <> 36%nat).
  { unfold Object_prototype in Hin.
    repeat (apply elem_of_cons in Hin as [-> | Hin]; [simpl; lia|]).
    by apply elem_of_nil in Hin. }
  assert (Hnot : name ∉ issued st.2).
  { intros Hi. apply Huuid in Hi as [e ->]. by rewrite randomUUID_length in Hlen. }
  split; [done|].
  assert (Hslot : lookup_session (transports st.1) name = Inherited).
  { unfold lookup_session. destruct (transports st.1 !! name) as [t|] eqn:Hk.
    - apply Hkeys in Hk as (? & _ & _ & _ & Hi). by destruct Hnot.
    - assert (existsb (String.eqb name) Object_prototype = true) as ->; [|done].
      apply existsb_exists. exists name. split; [by apply list_elem_of_In|].
      apply String.eqb_refl. }
  assert (name <> "") as Hne.
  { intros ->. unfold Object_prototype in Hin.
    repeat (apply elem_of_cons in Hin as [? | Hin]; [discriminate|]).
    by apply elem_of_nil in Hin. }
  rewrite (identified_request st entropy req name); [by rewrite Hslot| |done..].
  apply run_registered_ok.
Qed.


(** A registered identifier names the transport in the record: the
    request goes into its session while that is active. *)
Lemma registered_is_forwarded events sid transport entropy req :
  let st := run_with onsessioninitialized onclose events in
  mcp_session_id req = Some sid ->
  transports st.1 !! sid = Some transport ->
  exists this,
    objects st.1 !! transport = Some this
    /\ sessionId this = Some sid
    /\ initialized this = true
    /\ post_with onsessioninitialized st.1 entropy req
       = (st.1,
          match session_state this with
          | Active =>
              if negotiable req && negb (isInitializeRequest (body req))
              then Forwarded transport (body req) else Refused
          | _ => Refused
          end).
Proof.
  intros st Hsid Hk.
  pose proof (run_registered_ok events) as Hok. fold st in Hok.
  destruct (proj1 Hok _ _ Hk) as (this & Hthis & Hown & Hinit & Hin).
  exists this. split; [done|]. split; [done|]. split; [done|].
  destruct (issued_shape events sid Hin) as [Hne _].
  rewrite (identified_request st entropy req sid) by done.
  rewrite (registered_slot _ _ _ Hk), Hthis. cbn [fmap option_fmap option_map].
  by destruct (session_state this).
Qed.

(** A request changes the record at most under the identifier drawn. *)
Lemma post_elsewhere server entropy req k :
  k <> randomUUID entropy ->
  transports (post_with onsessioninitialized server entropy req).1 !! k
  = transports server !! k.
Proof.
  intros Hk.
  assert (forall transport srv,
             transports (handleRequest onsessioninitialized entropy transport req srv).1 !! k
             = transports srv !! k) as Hh.
  { intros transport srv. unfold handleRequest.
    destruct (objects srv !! transport) as [this|]; [|done].
    destruct (session_state this); [|by destruct (_ && _)|done].
    destruct (_ && _); [|done]. cbn [fst transports].
    by rewrite records, lookup_insert_ne. }
  unfold post_with. destruct (present _ && slot_truthy _).
  - destruct (lookup_session _ _); [apply Hh|done..].
  - destruct (negb _ && _); [|done].
    destruct (connect req); [|done]. by rewrite Hh.
Qed.

(** The whole effect of a request, in a state the server can reach: on
    the record, on the identifiers issued and on the objects; and what
    the caller gets when [mcp.connect] rejects. *)
Lemma post_effect events entropy req :
  let st := run_with onsessioninitialized onclose events in
  let sid := randomUUID entropy in
  let post := post_with onsessioninitialized st.1 entropy req in
  transports post.1
    = (if creates req then <[sid := length (objects st.1)]> (transports st.1)
       else transports st.1)
  /\ issued [post.2] = (if creates req then [sid] else [])
  /\ objects post.1
     = (if creates req then objects st.1 ++ [active sid]
        else if negb (present (mcp_session_id req))
                && isInitializeRequest (body req)
        then objects st.1 ++ [new_transport]
        else objects st.1)%list
  /\ (forall e,
        present (mcp_session_id req) = false ->
        isInitializeRequest (body req) = true ->
        connect req = Throw e ->
        post = (with_unregistered st.1, Rejected e)).
Proof.
  intros st sid post. subst post.
  pose proof (run_registered_ok events) as Hok. fold st in Hok.
  split; [|split; [|split]].
  - destruct (post_cases st entropy req Hok) as [Hpost Hnot].
    destruct (creates req); [by rewrite Hpost|]. by destruct (Hnot eq_refl) as (_ & ? & _).
  - destruct (post_cases st entropy req Hok) as [Hpost Hnot].
    destruct (creates req); [by rewrite Hpost|]. by destruct (Hnot eq_refl) as (? & _).
  - unfold creates.
    destruct (present (mcp_session_id req)) eqn:Hp; cbn [negb andb].
    + destruct (mcp_session_id req) as [k|] eqn:Hreq; [|done].
      assert (k <> "") as Hne by (by intros ->).
      by rewrite (identified_request st entropy req k).
    + destruct (isInitializeRequest (body req)) eqn:Hinit; cbn [andb].
      * destruct (resolved (connect req) && negotiable req) eqn:Hgo.
        -- apply andb_prop in Hgo as [Hconn Hneg].
           destruct (connect req) as [[]|e] eqn:Hc; [|done].
           by rewrite initiation_registers.
        -- by rewrite initiation_fails.
      * by rewrite no_session_no_initiation.
  - intros e Hp Hinit Hc. rewrite initiation_fails by (by rewrite ?Hc).
    by rewrite Hc.
Qed.

(** A request leaves the objects that were there as they are. *)
Lemma post_keeps_objects st entropy req transport this :
  registered_ok st ->
  objects st.1 !! transport = Some this ->
  objects (post_with onsessioninitialized st.1 entropy req).1 !! transport
  = Some this.
Proof.
  intros Hok Hthis.
  destruct (post_cases st entropy req Hok) as [Hpost Hnot].
  destruct (creates req).
  - rewrite Hpost. by apply lookup_app_l_Some.
  - destruct (Hnot eq_refl) as (_ & _ & [-> | ->]); [done|].
    by apply lookup_app_l_Some.
Qed.

Lemma posts_keep_objects posts st transport this :
  Forall is_post posts ->
  registered_ok st ->
  objects st.1 !! transport = Some this ->
  objects (fold_left (step_with onsessioninitialized onclose) posts st).1
    !! transport = Some this.
Proof.
  intros Hposts. revert st.
  induction Hposts as [|ev posts Hev _ IH]; intros st Hok Hthis;
    cbn [fold_left]; [done|].
  destruct ev as [entropy req|]; [|done].
  apply IH; [by apply step_registered_ok|]. cbn [step_with].
  pose proof (post_keeps_objects st entropy req transport this Hok Hthis) as H.
  by destruct (post_with onsessioninitialized st.1 entropy req).
Qed.

(** No POST takes a session out of the record, or changes the transport
    of a session; only a handshake that draws the identifier again binds
    it to another transport. *)
Lemma posts_keep_sessions posts st k transport :
  Forall is_post posts ->
  registered_ok st ->
  transports st.1 !! k = Some transport ->
  let st' := fold_left (step_with onsessioninitialized onclose) posts st in
  exists transport',
    transports st'.1 !! k = Some transport'
    /\ (k ∉ drawn posts -> transport' = transport)
    /\ objects st'.1 !! transport = objects st.1 !! transport.
Proof.
  intros Hposts. revert st transport.
  induction Hposts as [|ev posts Hev Hposts IH]; intros st transport Hok Hk;
    cbn [fold_left]; [by eauto|].
  destruct ev as [entropy req|]; [|done].
  pose proof (step_registered_ok st (Post entropy req) Hok)
    as Hok1.
  destruct (proj1 Hok _ _ Hk) as (this & Hthis & _).
  assert (objects (step_with onsessioninitialized onclose st (Post entropy req)).1
            !! transport = Some this) as Hthis1.
  { cbn [step_with].
    pose proof (post_keeps_objects st entropy req transport this Hok Hthis) as H.
    by destruct (post_with onsessioninitialized st.1 entropy req). }
  assert (exists transport1,
             transports (step_with onsessioninitialized onclose st (Post entropy req)).1
               !! k = Some transport1
             /\ ((creates req = true -> randomUUID entropy <> k) ->
                 transport1 = transport)) as (transport1 & Hk1 & Hsame).
  { cbn [step_with].
    destruct (post_cases st entropy req Hok) as [Hpost Hnot].
    destruct (post_with onsessioninitialized st.1 entropy req) as [server' reply].
    cbn [fst snd] in *. destruct (creates req).
    - injection Hpost as -> _. cbn [with_session transports].
      destruct (decide (randomUUID entropy = k)) as [<-|Hne].
      + rewrite lookup_insert_eq. eexists. split; [done|]. intros H. by destruct H.
      + rewrite lookup_insert_ne by done. eauto.
    - destruct (Hnot eq_refl) as (_ & -> & _). eauto. }
  destruct (IH _ transport1 Hok1 Hk1) as (transport' & Hk' & Hsame' & Hobj').
  pose proof (posts_keep_objects posts _ transport this Hposts Hok1 Hthis1) as Hobj.
  exists transport'. split; [done|]. split; [|by rewrite Hobj, Hthis].
  intros Hfresh. rewrite drawn_cons in Hfresh.
  assert ((k ∉ drawn posts) /\ (creates req = true -> randomUUID entropy <> k))
    as [Hfresh' Hne].
  { destruct (creates req).
    - cbn [app] in Hfresh. apply not_elem_of_cons in Hfresh as [? ?].
      split; [done|]. intros _ E. by symmetry in E.
    - split; [done|]. discriminate. }
  rewrite (Hsame' Hfresh'). by apply Hsame.
Qed.

End DispatcherFacts.

(** The hooks of each file fit the section. *)
Lemma ServerTs_records sid transport transports :
  ServerTs.onsessioninitialized sid transport transports
    = <[sid := transport]> transports.
Proof. reflexivity. Qed.

Lemma ServerTs_only_removes transport transports k v :
  ServerTs.onclose transport transports !! k = Some v ->
  transports !! k = Some v.
Proof.
  unfold ServerTs.onclose. destruct (present _); [|done].
  intros Hk. by apply lookup_delete_Some in Hk as [_ ?].
Qed.

Lemma Part000_records newSid transport transports :
  Part000.onsessioninitialized newSid transport transports
    = <[newSid := transport]> transports.
Proof. reflexivity. Qed.

Lemma Part000_only_removes transport transports k v :
  Part000.onclose transport transports !! k = Some v ->
  transports !! k = Some v.
Proof. done. Qed.

(** The first handshake of a server, in both files. *)
Lemma first_session entropy :
  ServerTs.run [Post entropy hello]
  = (with_session startup (randomUUID entropy), [Initialized (randomUUID entropy)])
  /\ Part000.run [Post entropy hello]
     = (with_session startup (randomUUID entropy), [Initialized (randomUUID entropy)]).
Proof.
  unfold ServerTs.run, Part000.run, run_with. cbn [fold_left step_with fst snd].
  rewrite !initiation_registers by done || apply ServerTs_records || apply Part000_records.
  done.
Qed.

(** What the closure of a transport does in [server.ts]. *)
Lemma ServerTs_close server transport this :
  objects server !! transport = Some this ->
  ServerTs.close server transport
  = {| objects := <[transport := {| sessionId := sessionId this;
                                    session_state := Closed |}]> (objects server);
       transports := if present (sessionId this)
                     then delete (default "" (sessionId this)) (transports server)
                     else transports server |}.
Proof. intros Hthis. unfold ServerTs.close, close_with. by rewrite Hthis. Qed.

(** In [server.ts] the closure of a registered transport removes its
    session: the next read of the identifier finds nothing. *)
Lemma ServerTs_closure_removes events sid transport :
  transports (ServerTs.run events).1 !! sid = Some transport ->
  lookup_session
    (transports (ServerTs.step (ServerTs.run events) (Close transport)).1) sid
  = Missing.
Proof.
  intros Hk.
  pose proof (run_registered_ok _ _ ServerTs_records ServerTs_only_removes events)
    as Hok.
  destruct (proj1 Hok _ _ Hk) as (this & Hthis & Hsid & _ & Hin).
  destruct (issued_shape _ _ ServerTs_records ServerTs_only_removes events sid Hin)
    as [Hne Hproto].
  cbn [ServerTs.step step_with fst]. fold ServerTs.close.
  rewrite (ServerTs_close _ _ this) by done. cbn [transports]. rewrite Hsid.
  assert (present (Some sid) = true) as ->.
  { unfold present. by apply negb_true_iff, String.eqb_neq. }
  change (default "" (Some sid)) with sid.
  unfold lookup_session. by rewrite lookup_delete_eq, Hproto.
Qed.

(** In [server.ts] the record holds open sessions only: a transport that
    closes takes its own entry with it. *)
Lemma ServerTs_entries_active events k transport :
  transports (ServerTs.run events).1 !! k = Some transport ->
  objects (ServerTs.run events).1 !! transport = Some (active k).
Proof.
  revert k transport. unfold ServerTs.run, run_with.
  apply (fold_left_invariant _
           (fun st => registered_ok st
                      /\ forall k transport,
                           transports st.1 !! k = Some transport ->
                           objects st.1 !! transport = Some (active k))).
  - intros st ev [Hok Hact]. split.
    { by apply step_registered_ok;
        [apply ServerTs_records|apply ServerTs_only_removes|]. }
    pose proof Hok as [Hkeys _].
    destruct ev as [entropy req|r]; cbn [step_with].
    + destruct (post_cases _ ServerTs_records st entropy req Hok) as [Hpost Hnot].
      destruct (post_with ServerTs.onsessioninitialized st.1 entropy req)
        as [server' reply] eqn:E.
      destruct (creates req).
      * injection Hpost as -> ->. cbn [fst with_session transports objects].
        intros k transport. destruct (decide (randomUUID entropy = k)) as [<-|Hne].
        -- rewrite lookup_insert_eq. intros [= <-]. by apply list_lookup_middle.
        -- rewrite lookup_insert_ne by done. intros Hk.
           by apply lookup_app_l_Some, Hact.
      * destruct (Hnot eq_refl) as (_ & Hrec & Hobj). cbn [fst snd] in *.
        intros k transport. rewrite Hrec. intros Hk.
        destruct Hobj as [->| ->]; [by apply Hact|].
        by apply lookup_app_l_Some, Hact.
    + cbn [fst]. fold ServerTs.close.
      destruct (objects st.1 !! r) as [this|] eqn:Hthis.
      * rewrite (ServerTs_close _ _ this) by done. cbn [transports objects].
        intros k transport Hk.
        assert (transports st.1 !! k = Some transport) as Hk0.
        { destruct (present (sessionId this)); [|done].
          by apply lookup_delete_Some in Hk as [_ ?]. }
        destruct (decide (r = transport)) as [->|Hne];
          [|rewrite list_lookup_insert_ne by done; by apply Hact].
        pose proof (Hact _ _ Hk0) as Hobj. rewrite Hthis in Hobj.
        injection Hobj as ->. cbn [active sessionId] in Hk.
        destruct (present (Some k)) eqn:Hp.
        -- change (default "" (Some k)) with k in Hk. by rewrite lookup_delete_eq in Hk.
        -- destruct (Hkeys _ _ Hk0) as (? & _ & _ & _ & Hin).
           assert (exists entropy, k = randomUUID entropy) as [entropy ->].
           { destruct Hok as [_ Huuid]. by apply Huuid. }
           by rewrite randomUUID_present in Hp.
      * unfold ServerTs.close, close_with. rewrite Hthis. apply Hact.
  - split; [apply startup_registered_ok|]. intros k transport.
    cbn [fst startup transports]. by rewrite lookup_empty.
Qed.

(** ** Claims on the session store and the dispatcher *)

(** C1 (fails on the code).  The claim: an identifier that session
    creation never returned finds no session and is answered with the
    protocol-level error.  On the code, in both files and in every state
    the server can reach, none of the names an object literal inherits
    from [Object.prototype] ([constructor], [toString], ...) was ever
    issued, yet [transports[name]] is truthy, the first branch is taken
    and the call of [handleRequest] on the inherited value throws: the
    handler rejects with a TypeError and the error reply is never
    written. *)
Theorem C1_inherited_name_is_taken_for_a_session :
  forall events entropy b c n,
    Forall (fun name =>
              let req := {| mcp_session_id := Some name; body := b;
                            connect := c; negotiable := n |} in
              ((name ∉ issued (ServerTs.run events).2)
               /\ ServerTs.post (ServerTs.run events).1 entropy req
                  = ((ServerTs.run events).1, Rejected TypeError))
              /\ ((name ∉ issued (Part000.run events).2)
                  /\ Part000.post (Part000.run events).1 entropy req
                     = ((Part000.run events).1, Rejected TypeError)))
           Object_prototype.
Proof.
  intros events entropy b c n. apply Forall_forall. intros name Hin req. split.
  - by apply (inherited_name_rejects _ _ ServerTs_records ServerTs_only_removes).
  - by apply (inherited_name_rejects _ _ Part000_records Part000_only_removes).
Qed.




(** C3.  An envelope without a session identifier (the header is absent
    or empty) whose body is not an initiation request is answered with
    the 400 "No valid session" error and leaves the server as it was: no
    session is created.  In both files, for every state of the record. *)
Theorem C3_no_identifier_no_initiation_is_rejected :
  forall server entropy req,
    present (mcp_session_id req) = false ->
    isInitializeRequest (body req) = false ->
    ServerTs.post server entropy req = (server, no_valid_session)
    /\ Part000.post server entropy req = (server, no_valid_session).
Proof.
  intros server entropy req Hnone Hinit.
  split; by apply no_session_no_initiation.
Qed.

Lemma C3_stray_call_is_rejected :
  ServerTs.post startup 0%N stray = (startup, no_valid_session)
  /\ Part000.post startup 0%N stray = (startup, no_valid_session).
Proof.
  apply (C3_no_identifier_no_initiation_is_rejected startup 0%N stray); reflexivity.
Defined.

(** C4 (fails on the code).  The claim: when the transport of a
    registered session closes, its identifier leaves the record.  The
    second file gives a new transport no [onclose]: for every identifier
    the generator draws, after the session is created and its transport
    closed, the read of the identifier still finds the transport, now
    closed. *)
Theorem C4_part000_closed_session_stays_registered :
  forall entropy,
    let req := {| mcp_session_id := None; body := InitializeRequest;
                  connect := Ok tt; negotiable := true |} in
    let sid := randomUUID entropy in
    (lookup_session (transports (Part000.run [Post entropy req]).1) sid = Own 0
     /\ objects (Part000.run [Post entropy req]).1 !! 0%nat = Some (active sid))
    /\ (lookup_session
          (transports (Part000.run [Post entropy req; Close 0]).1) sid
        = Own 0
        /\ objects (Part000.run [Post entropy req; Close 0]).1 !! 0%nat
           = Some (closed sid)).
Proof.
  intros entropy req sid.
  unfold Part000.run, run_with. cbn [fold_left].
  unfold step_with at 1 3. cbn [fst snd].
  rewrite initiation_registers by done || apply Part000_records.
  cbn [step_with fst]. unfold close_with, Part000.onclose, lookup_session.
  cbn. by rewrite lookup_insert_eq.
Qed.

(** ** Redaction as a function on payloads *)

Lemma own_put_eq props k x : own (put props k x) k = Some x.
Proof.
  induction props as [|[k' v] props IH]; simpl.
  - by rewrite String.eqb_refl.
  - destruct (String.eqb k' k) eqn:E; simpl; rewrite E; [done|apply IH].
Qed.

Lemma own_put_ne props k k2 x : k <> k2 -> own (put props k x) k2 = own props k2.
Proof.
  intros Hne. induction props as [|[k' v] props IH]; simpl.
  - apply String.eqb_neq in Hne. by rewrite Hne.
  - destruct (String.eqb k' k) eqn:E; simpl.
    + apply String.eqb_eq in E as ->. apply String.eqb_neq in Hne. by rewrite Hne.
    + by destruct (String.eqb k' k2).
Qed.

Lemma put_same props k x : own props k = Some x -> put props k x = props.
Proof.
  induction props as [|[k' v] props IH]; simpl; [done|].
  destruct (String.eqb k' k); [by intros [= ->]|]. intros H. by rewrite IH.
Qed.

Lemma put_put props k x y : put (put props k x) k y = put props k y.
Proof.
  induction props as [|[k' v] props IH]; simpl.
  - by rewrite String.eqb_refl.
  - destruct (String.eqb k' k) eqn:E; simpl; rewrite E; [done|by rewrite IH].
Qed.

Lemma truthy_is_object c k : truthy (get c k) = true -> exists props, c = JObj props.
Proof. destruct c; simpl; try discriminate. eauto. Qed.

(** *** The handlers compute these functions *)

Lemma redact_top_eq k mask data : redact_top k mask data = Ok (mask_top k mask data).
Proof.
  unfold redact_top, mask_top. destruct data; simpl; try done.
  by destruct (truthy (own props k)).
Qed.

Lemma redact_customer_eq data : redact_customer data = Ok (masked data).
Proof.
  unfold redact_customer. rewrite redact_top_eq. simpl. apply redact_top_eq.
Qed.

Lemma assign_customer_eq props c k mask :
  own props "customer" = Some c ->
  truthy (get c k) = true ->
  assign_customer (JObj props) k mask
    = Ok (JObj (put props "customer" (mask_top k mask c))).
Proof.
  intros Hc Ht. destruct (truthy_is_object _ _ Ht) as [cprops ->].
  unfold assign_customer. simpl. rewrite Hc. simpl in *. by rewrite Ht.
Qed.

Lemma opt_member_get c k : opt_member (Some c) k = get c k.
Proof. by destruct c. Qed.

Lemma Part000_redact_field_eq k mask t :
  Part000.redact_field k mask t = Ok (mask_customer k mask t).
Proof.
  unfold Part000.redact_field, mask_customer. rewrite (opt_member_get t).
  destruct t; cbn [get opt_member truthy]; try done.
  destruct (own props "customer") as [c|] eqn:Hc; [|done].
  rewrite opt_member_get.
  destruct (truthy (get c k)) eqn:Ht; [|done].
  by apply assign_customer_eq.
Qed.

Lemma ServerTs_redact_field_eq k mask t :
  t <> JNull -> ServerTs.redact_field k mask t = Ok (mask_customer k mask t).
Proof.
  intros Hnull. unfold ServerTs.redact_field, mask_customer.
  destruct t; cbn [member get mbind result_bind opt_member truthy]; try done.
  destruct (own props "customer") as [c|] eqn:Hc; [|done].
  rewrite opt_member_get.
  destruct (truthy (get c k)) eqn:Ht; [|done].
  by apply assign_customer_eq.
Qed.

Lemma mask_customer_not_null k mask t : t <> JNull -> mask_customer k mask t <> JNull.
Proof.
  destruct t; simpl; try done. intros _.
  destruct (own props "customer"); [|done]. by destruct (truthy _).
Qed.

Lemma Part000_redact_transaction_eq t :
  Part000.redact_transaction t = Ok (masked_transaction t).
Proof.
  unfold Part000.redact_transaction. rewrite Part000_redact_field_eq. simpl.
  apply Part000_redact_field_eq.
Qed.

Lemma ServerTs_redact_transaction_eq t :
  t <> JNull -> ServerTs.redact_transaction t = Ok (masked_transaction t).
Proof.
  intros Hnull. unfold ServerTs.redact_transaction.
  rewrite ServerTs_redact_field_eq by done. simpl.
  apply ServerTs_redact_field_eq. by apply mask_customer_not_null.
Qed.

Lemma ServerTs_redact_transaction_null :
  ServerTs.redact_transaction JNull = Throw TypeError.
Proof. reflexivity. Qed.

Lemma ServerTs_redact_transaction_Ok t t' :
  ServerTs.redact_transaction t = Ok t' -> t <> JNull /\ t' = masked_transaction t.
Proof.
  intros H. assert (t <> JNull) as Hne by (by intros ->).
  rewrite ServerTs_redact_transaction_eq in H by done. by injection H as <-.
Qed.

(** *** One field *)

Lemma get_mask_top_eq k mask c :
  truthy (get c k) = true -> get (mask_top k mask c) k = Some mask.
Proof.
  intros Ht. destruct (truthy_is_object _ _ Ht) as [props ->].
  simpl in *. rewrite Ht. simpl. apply own_put_eq.
Qed.

Lemma get_mask_top_ne k k2 mask c :
  k <> k2 -> get (mask_top k mask c) k2 = get c k2.
Proof.
  intros Hne. destruct c; simpl; try done.
  destruct (truthy (own props k)); simpl; [by apply own_put_ne|done].
Qed.

Lemma mask_top_falsy k mask c : truthy (get c k) = false -> mask_top k mask c = c.
Proof. destruct c; simpl; try done. by intros ->. Qed.

Lemma mask_top_fixed k mask c : get c k = Some mask -> mask_top k mask c = c.
Proof.
  destruct c; simpl; try done. intros Hk.
  destruct (truthy (own props k)); [|done]. by rewrite put_same.
Qed.

Lemma mask_top_absorb k k2 mask mask2 c :
  k <> k2 ->
  mask_top k mask (mask_top k2 mask2 (mask_top k mask c))
    = mask_top k2 mask2 (mask_top k mask c).
Proof.
  intros Hne. destruct (truthy (get c k)) eqn:Ht.
  - apply mask_top_fixed. rewrite get_mask_top_ne by done.
    by apply get_mask_top_eq.
  - rewrite (mask_top_falsy k mask c) by done.
    apply mask_top_falsy. by rewrite get_mask_top_ne.
Qed.

Lemma mask_top_idem k mask c :
  mask_top k mask (mask_top k mask c) = mask_top k mask c.
Proof.
  destruct (truthy (get c k)) eqn:Ht.
  - apply mask_top_fixed. by apply get_mask_top_eq.
  - by rewrite !(mask_top_falsy k mask c).
Qed.

Lemma masked_idem c : masked (masked c) = masked c.
Proof.
  unfold masked. rewrite (mask_top_absorb "email" "phone") by done.
  apply mask_top_idem.
Qed.

(** *** One transaction *)

Lemma mask_customer_obj k mask props c :
  own props "customer" = Some c ->
  mask_customer k mask (JObj props) = JObj (put props "customer" (mask_top k mask c)).
Proof.
  intros Hc. simpl. rewrite Hc. destruct (truthy (get c k)) eqn:Ht; [done|].
  rewrite mask_top_falsy by done. by rewrite put_same.
Qed.

Lemma mask_customer_none k mask t :
  get t "customer" = None -> mask_customer k mask t = t.
Proof. destruct t; simpl; try done. by intros ->. Qed.

Lemma masked_transaction_obj props c :
  own props "customer" = Some c ->
  masked_transaction (JObj props) = JObj (put props "customer" (masked c)).
Proof.
  intros Hc. unfold masked_transaction.
  rewrite (mask_customer_obj "email" _ _ c) by done.
  rewrite (mask_customer_obj "phone" _ _ (mask_top "email" email_mask c))
    by apply own_put_eq.
  by rewrite put_put.
Qed.

Lemma masked_transaction_none t :
  get t "customer" = None -> masked_transaction t = t.
Proof.
  intros Hc. unfold masked_transaction.
  rewrite (mask_customer_none "email") by done. by apply mask_customer_none.
Qed.

Lemma masked_transaction_customer t c :
  get t "customer" = Some c -> get (masked_transaction t) "customer" = Some (masked c).
Proof.
  destruct t; simpl; try done. intros Hc.
  rewrite (masked_transaction_obj _ c) by done. simpl. apply own_put_eq.
Qed.

Lemma masked_transaction_idem t :
  masked_transaction (masked_transaction t) = masked_transaction t.
Proof.
  destruct (get t "customer") as [c|] eqn:Hc.
  - destruct t; simpl in Hc; try done.
    rewrite (masked_transaction_obj _ c) by done.
    rewrite (masked_transaction_obj _ (masked c)) by apply own_put_eq.
    by rewrite put_put, masked_idem.
  - rewrite (masked_transaction_none t) by done. by apply masked_transaction_none.
Qed.

Lemma masked_transaction_not_null t :
  is_null (masked_transaction t) = is_null t.
Proof.
  destruct (get t "customer") as [c|] eqn:Hc.
  - destruct t; simpl in Hc; try done. by rewrite (masked_transaction_obj _ c).
  - by rewrite masked_transaction_none.
Qed.

(** *** The whole list *)

Lemma masked_transactions_array props elems :
  own props "transactions" = Some (JArr elems) ->
  masked_transactions (JObj props)
    = JObj (put props "transactions" (JArr (map masked_transaction elems))).
Proof. intros Hts. unfold masked_transactions. simpl. by rewrite Hts. Qed.

Lemma masked_transactions_idem data :
  masked_transactions (masked_transactions data) = masked_transactions data.
Proof.
  destruct (get data "transactions") as [ts|] eqn:Hts.
  - destruct data; try done. simpl in Hts.
    destruct ts as [| | | |elems|];
      try (unfold masked_transactions; simpl; by rewrite Hts; simpl; rewrite Hts).
    rewrite (masked_transactions_array _ elems) by done.
    rewrite (masked_transactions_array _ (map masked_transaction elems))
      by apply own_put_eq.
    rewrite put_put. do 3 f_equal.
    rewrite map_map. apply map_ext. intros t. apply masked_transaction_idem.
  - unfold masked_transactions. rewrite Hts. by rewrite Hts.
Qed.

Lemma mapM_masked (body : json -> result json) elems :
  (forall t, In t elems -> body t = Ok (masked_transaction t)) ->
  mapM body elems = Ok (map masked_transaction elems).
Proof.
  induction elems as [|t elems IH]; intros Hbody; simpl; [done|].
  rewrite Hbody by (by left). simpl. rewrite IH by (intros; apply Hbody; by right).
  reflexivity.
Qed.

Lemma for_transactions_eq (body : json -> result json) data :
  iterable (get data "transactions") = true ->
  (forall ts elems t,
      get data "transactions" = Some ts -> iterate ts = Ok elems -> In t elems ->
      body t = Ok (masked_transaction t)) ->
  for_transactions body data = Ok (masked_transactions data).
Proof.
  intros Hit Hbody. unfold for_transactions, masked_transactions.
  rewrite opt_member_get.
  destruct (get data "transactions") as [ts|] eqn:Hts; [|done].
  destruct ts as [| | |s|elems|]; try done.
  - simpl. rewrite (mapM_masked body) by (intros; by eapply Hbody). simpl.
    by destruct data.
  - simpl. rewrite (mapM_masked body) by (intros; by eapply Hbody). simpl.
    by destruct data.
Qed.

Lemma Part000_redact_transactions_eq data :
  iterable (get data "transactions") = true ->
  Part000.redact_transactions data = Ok (masked_transactions data).
Proof.
  intros Hit. apply for_transactions_eq; [done|].
  intros. apply Part000_redact_transaction_eq.
Qed.

Lemma ServerTs_redact_transactions_eq data :
  iterable (get data "transactions") = true ->
  null_free (get data "transactions") = true ->
  ServerTs.redact_transactions data = Ok (masked_transactions data).
Proof.
  intros Hit Hnf. apply for_transactions_eq; [done|].
  intros ts elems t Hts Hiter Hin. apply ServerTs_redact_transaction_eq.
  intros ->. rewrite Hts in Hnf. destruct ts; simpl in Hiter; try done.
  - injection Hiter as <-. apply in_map_iff in Hin as (? & ? & _). done.
  - injection Hiter as <-. simpl in Hnf.
    rewrite forallb_forall in Hnf. by apply Hnf in Hin.
Qed.

Lemma masked_transactions_get data :
  get (masked_transactions data) "transactions"
  = match get data "transactions" with
    | Some (JArr elems) => Some (JArr (map masked_transaction elems))
    | other => other
    end.
Proof.
  destruct (get data "transactions") as [ts|] eqn:Hts.
  - destruct data; try done. simpl in Hts.
    destruct ts as [| | | |elems|];
      try (unfold masked_transactions; simpl; by rewrite Hts).
    rewrite (masked_transactions_array _ elems) by done. simpl. apply own_put_eq.
  - unfold masked_transactions. by rewrite Hts.
Qed.

Lemma masked_transactions_iterable data :
  iterable (get (masked_transactions data) "transactions")
  = iterable (get data "transactions").
Proof.
  rewrite masked_transactions_get.
  by destruct (get data "transactions") as [[]|].
Qed.

Lemma masked_transactions_null_free data :
  null_free (get (masked_transactions data) "transactions")
  = null_free (get data "transactions").
Proof.
  rewrite masked_transactions_get.
  destruct (get data "transactions") as [[| | | |elems|]|]; try done.
  simpl. induction elems as [|t elems IH]; simpl; [done|].
  by rewrite masked_transaction_not_null, IH.
Qed.

Lemma for_transactions_Ok_iterable (body : json -> result json) data data' :
  for_transactions body data = Ok data' ->
  iterable (get data "transactions") = true.
Proof.
  unfold for_transactions. rewrite opt_member_get.
  destruct (get data "transactions") as [[]|]; simpl; done.
Qed.

Lemma mapM_Ok_null_free elems elems' :
  mapM ServerTs.redact_transaction elems = Ok elems' ->
  forallb (fun t => negb (is_null t)) elems = true.
Proof.
  revert elems'. induction elems as [|t elems IH]; intros elems'; simpl; [done|].
  destruct (ServerTs.redact_transaction t) as [t'|] eqn:Ht; simpl; [|done].
  destruct (mapM ServerTs.redact_transaction elems) as [rest|]; simpl; [|done].
  intros _. apply ServerTs_redact_transaction_Ok in Ht as [Hne _].
  rewrite (IH rest) by done. by destruct t.
Qed.

Lemma ServerTs_redact_transactions_Ok data data' :
  ServerTs.redact_transactions data = Ok data' ->
  iterable (get data "transactions") = true
  /\ null_free (get data "transactions") = true.
Proof.
  intros H. split; [by eapply for_transactions_Ok_iterable|].
  revert H. unfold ServerTs.redact_transactions, for_transactions.
  rewrite opt_member_get.
  destruct (get data "transactions") as [[| | | |elems|]|]; simpl; try done.
  destruct (mapM ServerTs.redact_transaction elems) as [elems'|] eqn:Hm;
    simpl; [|done].
  intros _. by eapply mapM_Ok_null_free.
Qed.

(** Redacting a redacted payload changes nothing; a run that throws
    throws again. *)
Lemma redaction_idempotent data :
  (redact_customer data ≫= redact_customer) = redact_customer data
  /\ (Part000.redact_transactions data ≫= Part000.redact_transactions)
     = Part000.redact_transactions data
  /\ (ServerTs.redact_transactions data ≫= ServerTs.redact_transactions)
     = ServerTs.redact_transactions data.
Proof.
  split; [|split].
  - rewrite redact_customer_eq. simpl. by rewrite redact_customer_eq, masked_idem.
  - destruct (Part000.redact_transactions data) as [data'|e] eqn:H; [|done].
    pose proof (for_transactions_Ok_iterable _ _ _ H) as Hit.
    rewrite Part000_redact_transactions_eq in H by done. injection H as <-.
    simpl. rewrite Part000_redact_transactions_eq
      by (by rewrite masked_transactions_iterable).
    by rewrite masked_transactions_idem.
  - destruct (ServerTs.redact_transactions data) as [data'|e] eqn:H; [|done].
    destruct (ServerTs_redact_transactions_Ok _ _ H) as [Hit Hnf].
    rewrite ServerTs_redact_transactions_eq in H by done. injection H as <-.
    simpl. rewrite ServerTs_redact_transactions_eq
      by (by rewrite ?masked_transactions_iterable, ?masked_transactions_null_free).
    by rewrite masked_transactions_idem.
Qed.

(** *** Payloads without the two fields *)

Lemma mentions_own k props :
  mentions k (JObj props) = false -> own props k = None.
Proof.
  simpl. induction props as [|[k' v] props IH]; simpl; [done|].
  intros H. apply orb_false_iff in H as [H1 H2].
  apply orb_false_iff in H1 as [H1 _]. rewrite H1. by apply IH.
Qed.

Lemma mentions_child k props k' v :
  mentions k (JObj props) = false -> own props k' = Some v -> mentions k v = false.
Proof.
  simpl. induction props as [|[k0 v0] props IH]; simpl; [done|].
  intros H. apply orb_false_iff in H as [H1 H2].
  apply orb_false_iff in H1 as [_ H1].
  destruct (String.eqb k0 k'); [by intros [= <-]|by apply IH].
Qed.

Lemma mentions_elem k elems t :
  mentions k (JArr elems) = false -> In t elems -> mentions k t = false.
Proof.
  simpl. induction elems as [|t0 elems IH]; simpl; [done|].
  intros H. apply orb_false_iff in H as [H1 H2].
  intros [<-|Hin]; [done|by apply IH].
Qed.

Lemma mask_top_unmentioned k mask c : mentions k c = false -> mask_top k mask c = c.
Proof.
  intros H. apply mask_top_falsy. destruct c; try done.
  simpl. by rewrite (mentions_own _ _ H).
Qed.

Lemma masked_unmentioned c :
  mentions "email" c = false -> mentions "phone" c = false -> masked c = c.
Proof.
  intros He Hp. unfold masked. rewrite (mask_top_unmentioned "email") by done.
  by apply mask_top_unmentioned.
Qed.

Lemma masked_transaction_unmentioned t :
  mentions "email" t = false -> mentions "phone" t = false ->
  masked_transaction t = t.
Proof.
  intros He Hp. destruct (get t "customer") as [c|] eqn:Hc.
  - destruct t; simpl in Hc; try done.
    rewrite (masked_transaction_obj _ c) by done.
    rewrite masked_unmentioned by (by eapply mentions_child).
    by rewrite put_same.
  - by apply masked_transaction_none.
Qed.

Lemma masked_transactions_unmentioned data :
  mentions "email" data = false -> mentions "phone" data = false ->
  masked_transactions data = data.
Proof.
  intros He Hp. destruct (get data "transactions") as [ts|] eqn:Hts.
  - destruct data; try done. simpl in Hts.
    destruct ts as [| | | |elems|];
      try (unfold masked_transactions; simpl; by rewrite Hts).
    rewrite (masked_transactions_array _ elems) by done.
    assert (map masked_transaction elems = elems) as ->.
    { rewrite <- (map_id elems) at 2. apply map_ext_in. intros t Hin.
      apply masked_transaction_unmentioned;
        (eapply mentions_elem; [by eapply mentions_child|done]). }
    by rewrite put_same.
  - unfold masked_transactions. by rewrite Hts.
Qed.

(** A payload that has no email and no phone property anywhere comes back
    as it was, provided the loop can run over it. *)
Lemma redaction_identity data :
  mentions "email" data = false ->
  mentions "phone" data = false ->
  redact_customer data = Ok data
  /\ (iterable (get data "transactions") = true ->
      Part000.redact_transactions data = Ok data)
  /\ (iterable (get data "transactions") = true ->
      null_free (get data "transactions") = true ->
      ServerTs.redact_transactions data = Ok data).
Proof.
  intros He Hp. split; [|split].
  - by rewrite redact_customer_eq, masked_unmentioned.
  - intros Hit. by rewrite Part000_redact_transactions_eq, masked_transactions_unmentioned.
  - intros Hit Hnf.
    by rewrite ServerTs_redact_transactions_eq, masked_transactions_unmentioned.
Qed.

(** What the two assignments make of each field: the mask when the
    field held a truthy value, the field as it was otherwise. *)
Lemma get_masked_email c :
  get (masked c) "email"
  = if truthy (get c "email") then Some email_mask else get c "email".
Proof.
  unfold masked. rewrite get_mask_top_ne by done.
  destruct (truthy (get c "email")) eqn:He; [by apply get_mask_top_eq|].
  by rewrite mask_top_falsy.
Qed.

Lemma get_masked_phone c :
  get (masked c) "phone"
  = if truthy (get c "phone") then Some phone_mask else get c "phone".
Proof.
  unfold masked.
  assert (get (mask_top "email" email_mask c) "phone" = get c "phone") as Hp
    by (by apply get_mask_top_ne).
  destruct (truthy (get c "phone")) eqn:Ht.
  - apply get_mask_top_eq. by rewrite Hp.
  - rewrite mask_top_falsy; [done|]. by rewrite Hp.
Qed.

(** ** Claims on the redaction filter *)

(** C5 (as stated, fails on the code).  A customer record whose email and
    phone are empty strings keeps both, at the top level and inside a
    transaction, in both files: the handlers mask a field only when its
    value is truthy. *)
Lemma C5_blank_email_and_phone_are_kept :
  get blank_customer "email" = Some (JStr "")
  /\ JStr "" <> email_mask
  /\ JStr "" <> phone_mask
  /\ redact_customer blank_customer = Ok blank_customer
  /\ ServerTs.redact_transactions blank_transactions = Ok blank_transactions
  /\ Part000.redact_transactions blank_transactions = Ok blank_transactions.
Proof. repeat split; discriminate. Qed.

(** C5 (amended).  Redaction replaces a customer record's email by
    [redacted@example.com] and its phone by the ten-star mask whenever
    the field holds a truthy value, and leaves the field as it is
    otherwise (absent stays absent; null, false, 0 and the empty string
    stay), in the same way for the top-level payload of
    [punchh.getCustomer] and for the customer of every element of the
    transactions list of [punchh.listTransactions] (in [server.ts]: when
    no element of the list is null). *)
Theorem C5_truthy_email_and_phone_are_masked :
  (forall data,
      exists data',
        redact_customer data = Ok data'
        /\ get data' "email"
           = (if truthy (get data "email") then Some email_mask
              else get data "email")
        /\ get data' "phone"
           = (if truthy (get data "phone") then Some phone_mask
              else get data "phone"))
  /\ (forall data elems,
        get data "transactions" = Some (JArr elems) ->
        exists data' elems',
          Part000.redact_transactions data = Ok data'
          /\ (null_free (Some (JArr elems)) = true ->
              ServerTs.redact_transactions data = Ok data')
          /\ get data' "transactions" = Some (JArr elems')
          /\ length elems' = length elems
          /\ forall i t c,
               elems !! i = Some t ->
               get t "customer" = Some c ->
               exists t' c',
                 elems' !! i = Some t'
                 /\ get t' "customer" = Some c'
                 /\ get c' "email"
                    = (if truthy (get c "email") then Some email_mask
                       else get c "email")
                 /\ get c' "phone"
                    = (if truthy (get c "phone") then Some phone_mask
                       else get c "phone")).
Proof.
  split.
  - intros data. exists (masked data).
    split; [apply redact_customer_eq|].
    split; [apply get_masked_email|apply get_masked_phone].
  - intros data elems Hts.
    exists (masked_transactions data), (map masked_transaction elems).
    split; [apply Part000_redact_transactions_eq; by rewrite Hts|].
    split; [intros Hnf; apply ServerTs_redact_transactions_eq; by rewrite Hts|].
    split; [by rewrite masked_transactions_get, Hts|].
    split; [apply length_map|].
    intros i t c Hi Hc. exists (masked_transaction t), (masked c).
    split; [by rewrite list_lookup_fmap, Hi|].
    split; [by apply masked_transaction_customer|].
    split; [apply get_masked_email|apply get_masked_phone].
Qed.

Lemma C5_one_transaction_is_masked :
  get one_transaction "transactions" = Some (JArr one_transaction_elems)
  /\ exists data' elems',
       Part000.redact_transactions one_transaction = Ok data'
       /\ (null_free (Some (JArr one_transaction_elems)) = true ->
           ServerTs.redact_transactions one_transaction = Ok data')
       /\ get data' "transactions" = Some (JArr elems')
       /\ length elems' = length one_transaction_elems
       /\ forall i t c,
            one_transaction_elems !! i = Some t ->
            get t "customer" = Some c ->
            exists t' c',
              elems' !! i = Some t'
              /\ get t' "customer" = Some c'
              /\ get c' "email"
                 = (if truthy (get c "email") then Some email_mask
                    else get c "email")
              /\ get c' "phone"
                 = (if truthy (get c "phone") then Some phone_mask
                    else get c "phone").
Proof.
  split; [reflexivity|].
  apply (proj2 C5_truthy_email_and_phone_are_masked
           one_transaction one_transaction_elems).
  reflexivity.
Defined.

(** C6 (fails on the code).  The claim: redaction is idempotent and is
    the identity on a payload without email and phone fields.  The
    payload [{"transactions": [null]}] has neither field, yet the loop of
    [server.ts] reads [t.customer] of the null element and throws, where
    the other file ([t?.customer]) returns the payload as it is; a
    transactions value that cannot be iterated throws in both files. *)
Theorem C6_server_ts_is_not_the_identity_on_null_transaction :
  mentions "email" null_transaction = false
  /\ mentions "phone" null_transaction = false
  /\ ServerTs.redact_transactions null_transaction = Throw TypeError
  /\ Part000.redact_transactions null_transaction = Ok null_transaction
  /\ mentions "email" scalar_transactions = false
  /\ mentions "phone" scalar_transactions = false
  /\ ServerTs.redact_transactions scalar_transactions = Throw TypeError
  /\ Part000.redact_transactions scalar_transactions = Throw TypeError.
Proof. repeat split. Qed.

(** C7 (fails on the code).  The claim: the filter never raises, also
    when the transactions list holds null or non-object elements.  When
    the upstream answers 200 with [{"transactions": [null]}], the
    [punchh.listTransactions] handler of [server.ts] throws a TypeError
    out of its redaction loop; the handler of the other file returns the
    payload. *)
Theorem C7_server_ts_handler_throws_on_null_transaction :
  forall env customer_id limit,
    let fetch : Fetch :=
      fun _ _ => Ok {| status := 200; payload := Some null_transaction |} in
    ServerTs.listTransactions env fetch customer_id limit = Throw TypeError
    /\ Part000.listTransactions env fetch customer_id limit
       = Ok (TextContent null_transaction).
Proof. intros env customer_id limit fetch. split; reflexivity. Qed.

(** Where the filter does return: always on the payload of
    [punchh.getCustomer]; in the second file whenever the transactions
    value can be iterated; in [server.ts] when moreover no element is
    null. *)
Lemma redaction_returns data :
  (exists data', redact_customer data = Ok data')
  /\ (iterable (get data "transactions") = true ->
      exists data', Part000.redact_transactions data = Ok data')
  /\ (iterable (get data "transactions") = true ->
      null_free (get data "transactions") = true ->
      exists data', ServerTs.redact_transactions data = Ok data').
Proof.
  split; [|split].
  - eexists. apply redact_customer_eq.
  - intros Hit. eexists. by apply Part000_redact_transactions_eq.
  - intros Hit Hnf. eexists. by apply ServerTs_redact_transactions_eq.
Qed.

(** ** Claims on the upstream client *)

Lemma Number_parse_toString n : Number_parse (Number_toString n) = Some n.
Proof.
  unfold Number_parse, Number_toString.
  rewrite NilZero.isi.
  - simpl. by rewrite DecimalZ.of_to.
  - destruct n; simpl; try done. intros [= H]. by apply DecimalPos.Unsigned.to_uint_nonnil in H.
  - destruct n; simpl; try done. intros [= H]. by apply DecimalPos.Unsigned.to_uint_nonnil in H.
Qed.

(** C9.  Whenever the upstream answers with a status outside 200-299,
    each of the four handlers throws [Error("Punchh error <status>")]
    before it reads the body: the caller gets the status (it can be read
    back from the message) and no data. *)
Theorem C9_failure_status_is_thrown :
  forall env (fetch : Fetch) customer_id limit r,
    ok r = false ->
    let auth := "Bearer " +:+ PUNCHH_TOKEN env in
    let failure : result Content :=
      Throw (Error ("Punchh error " +:+ Number_toString (status r))) in
    (fetch (getCustomer_url env customer_id) auth = Ok r ->
     ServerTs.getCustomer env fetch customer_id = failure
     /\ Part000.getCustomer env fetch customer_id = failure)
    /\ (fetch (ServerTs.listTransactions_url env customer_id limit) auth = Ok r ->
        ServerTs.listTransactions env fetch customer_id limit = failure)
    /\ (fetch (Part000.listTransactions_url env customer_id limit) auth = Ok r ->
        Part000.listTransactions env fetch customer_id limit = failure)
    /\ Number_parse (Number_toString (status r)) = Some (status r).
Proof.
  intros env fetch customer_id limit r Hok auth failure.
  split; [|split; [|split]].
  - intros H. unfold ServerTs.getCustomer, Part000.getCustomer, getCustomer_with.
    fold auth. rewrite H. simpl. by rewrite Hok.
  - intros H. unfold ServerTs.listTransactions. fold auth. rewrite H. simpl.
    by rewrite Hok.
  - intros H. unfold Part000.listTransactions. fold auth. rewrite H. simpl.
    by rewrite Hok.
  - apply Number_parse_toString.
Qed.

Lemma C9_not_found_is_thrown :
  ok not_found = false
  /\ ServerTs.listTransactions sandbox (fun _ _ => Ok not_found) "c1" 25
     = Throw (Error "Punchh error 404").
Proof.
  split; [reflexivity|].
  apply (C9_failure_status_is_thrown
           sandbox (fun _ _ => Ok not_found) "c1" 25 not_found); reflexivity.
Defined.

Lemma url_safe_app a b : url_safe (a +:+ b) = url_safe a && url_safe b.
Proof.
  unfold url_safe. induction a as [|c a IH]; simpl; [done|].
  by rewrite IH, andb_assoc.
Qed.

Lemma url_safe_char c :
  url_safe (if unreserved c then String c "" else percent c) = true.
Proof. destruct c as [[] [] [] [] [] [] [] []]; reflexivity. Qed.

Lemma encodeURIComponent_safe s : url_safe (encodeURIComponent s) = true.
Proof.
  induction s as [|c s IH]; simpl; [done|].
  by rewrite url_safe_app, url_safe_char, IH.
Qed.

(** Three of the four upstream URLs are built from the escaped
    identifier. *)
Lemma escaped_urls env customer_id limit :
  getCustomer_url env customer_id
    = PUNCHH_BASE env +:+ "/api/v2/customers/" +:+ encodeURIComponent customer_id
  /\ Part000.listTransactions_url env customer_id limit
     = PUNCHH_BASE env +:+ "/api/v2/customers/" +:+ encodeURIComponent customer_id
         +:+ "/transactions?limit=" +:+ Number_toString limit
  /\ url_safe (encodeURIComponent customer_id) = true.
Proof. repeat split. apply encodeURIComponent_safe. Qed.

(** C10 (fails on the code).  The claim: both upstream calls build their
    URL from the path-escaped identifier.  [punchh.listTransactions] of
    [server.ts] puts the identifier into the path as it is: for the
    identifier [7/../8] it fetches [.../customers/7/../8/transactions],
    where the same handler of the other file fetches
    [.../customers/7%2F..%2F8/transactions]. *)
Theorem C10_server_ts_listTransactions_does_not_escape :
  forall env limit,
    let echo : Fetch := fun url _ => Throw (Error url) in
    ServerTs.listTransactions env echo "7/../8" limit
      = Throw (Error (PUNCHH_BASE env +:+ "/api/v2/customers/7/../8/transactions?limit="
                        +:+ Number_toString limit))
    /\ Part000.listTransactions env echo "7/../8" limit
       = Throw (Error (PUNCHH_BASE env
                         +:+ "/api/v2/customers/7%2F..%2F8/transactions?limit="
                         +:+ Number_toString limit))
    /\ url_safe "7/../8" = false.
Proof. intros env limit echo. repeat split. Qed.

(** ** Claims on the operation registry *)
















(** * Further properties of the code *)

(** ** The bearer-token middleware of the second file *)

(** X1.  The middleware lets a request through exactly when its path is
    [/healthz], or the shared secret is configured (set and not empty)
    and the Authorization header is [Bearer <secret>], character for
    character.  Every other request is answered by the middleware itself:
    with 500 "Server misconfigured" when no secret is configured (whatever
    the header says, [Bearer undefined] included), with 401
    "Unauthorized" otherwise. *)
Theorem X1_auth_lets_through_exactly_the_credential :
  forall path MCP_SHARED_SECRET authorization,
    (Part000.auth path MCP_SHARED_SECRET authorization = Part000.Next
     <-> path = "/healthz"
         \/ exists secret,
              MCP_SHARED_SECRET = Some secret /\ secret <> ""
              /\ authorization = Some ("Bearer " +:+ secret))
    /\ (Part000.auth path MCP_SHARED_SECRET authorization = Part000.Next
        \/ Part000.auth path MCP_SHARED_SECRET authorization
           = (if present MCP_SHARED_SECRET
              then Part000.Deny 401 "Unauthorized"
              else Part000.Deny 500 "Server misconfigured")).
Proof.
  intros path secret authorization. unfold Part000.auth.
  destruct (String.eqb_spec path "/healthz") as [->|Hpath].
  { split; [|by left]. split; [by left|done]. }
  destruct secret as [s|]; cbn [present negb].
  - change (default "undefined" (Some s)) with s.
    destruct (String.eqb_spec s "") as [->|Hs]; cbn [negb].
    + split; [|by right]. split; [done|].
      intros [?|(s' & [= <-] & ? & _)]; done.
    + destruct authorization as [a|].
      * destruct (String.eqb_spec a ("Bearer " +:+ s)) as [->|Ha]; cbn [negb].
        -- split; [|by left]. split; [|done]. intros _. right. by exists s.
        -- split; [|by right]. split; [done|].
           intros [?|(s' & [= <-] & _ & [= ->])]; done.
      * cbn [negb]. split; [|by right]. split; [done|].
        intros [?|(s' & _ & _ & ?)]; done.
  - split; [|by right]. split; [done|]. intros [?|(s' & ? & _)]; done.
Qed.




(** ** Routing in the dispatcher *)

(** X3.  In every state the server can reach, a request creates a
    session exactly when it has no session header (absent or empty), its
    body is an initiation request, [mcp.connect] takes the new transport
    and the transport accepts the envelope: then the record gains the new
    transport, active, under the identifier drawn, and that identifier is
    issued.  In every other case the record is left as it is and nothing
    is issued; an initiation request whose handshake fails leaves an
    unregistered transport behind, and when [mcp.connect] rejects, the
    route handler rejects with the same error.  In both files. *)
Theorem X3_session_is_created_exactly_by_initiation :
  forall events entropy req,
    let sid := randomUUID entropy in
    (let st := ServerTs.run events in
     let post := ServerTs.post st.1 entropy req in
     transports post.1
       = (if creates req then <[sid := length (objects st.1)]> (transports st.1)
          else transports st.1)
     /\ issued [post.2] = (if creates req then [sid] else [])
     /\ objects post.1
        = (if creates req then objects st.1 ++ [active sid]
           else if negb (present (mcp_session_id req))
                   && isInitializeRequest (body req)
           then objects st.1 ++ [new_transport]
           else objects st.1)%list
     /\ (forall e,
           present (mcp_session_id req) = false ->
           isInitializeRequest (body req) = true ->
           connect req = Throw e ->
           post = (with_unregistered st.1, Rejected e)))
    /\ (let st := Part000.run events in
        let post := Part000.post st.1 entropy req in
        transports post.1
          = (if creates req then <[sid := length (objects st.1)]> (transports st.1)
             else transports st.1)
        /\ issued [post.2] = (if creates req then [sid] else [])
        /\ objects post.1
           = (if creates req then objects st.1 ++ [active sid]
              else if negb (present (mcp_session_id req))
                      && isInitializeRequest (body req)
              then objects st.1 ++ [new_transport]
              else objects st.1)%list
        /\ (forall e,
              present (mcp_session_id req) = false ->
              isInitializeRequest (body req) = true ->
              connect req = Throw e ->
              post = (with_unregistered st.1, Rejected e))).
Proof.
  intros events entropy req sid. split.
  - apply (post_effect _ _ ServerTs_records ServerTs_only_removes).
  - apply (post_effect _ _ Part000_records Part000_only_removes).
Qed.

(** X4.  In every state the server can reach, a request whose session
    header names a registered session is handed to the transport stored
    under that identifier, and the server is left as it is.  In
    [server.ts] that transport is active: it takes the body, and turns
    down an initiation request, which replaces nothing.  In the second
    file the transport is active, and does the same, or it has closed
    and was left in the record: then it turns the request down. *)
Theorem X4_registered_session_gets_the_request :
  forall events sid transport entropy req,
    mcp_session_id req = Some sid ->
    negotiable req = true ->
    (transports (ServerTs.run events).1 !! sid = Some transport ->
     objects (ServerTs.run events).1 !! transport = Some (active sid)
     /\ ServerTs.post (ServerTs.run events).1 entropy req
        = ((ServerTs.run events).1,
           if isInitializeRequest (body req) then Refused
           else Forwarded transport (body req)))
    /\ (transports (Part000.run events).1 !! sid = Some transport ->
        (objects (Part000.run events).1 !! transport = Some (active sid)
         /\ Part000.post (Part000.run events).1 entropy req
            = ((Part000.run events).1,
               if isInitializeRequest (body req) then Refused
               else Forwarded transport (body req)))
        \/ (objects (Part000.run events).1 !! transport = Some (closed sid)
            /\ Part000.post (Part000.run events).1 entropy req
               = ((Part000.run events).1, Refused))).
Proof.
  intros events sid transport entropy req Hsid Hneg. split; intros Hk.
  - pose proof (ServerTs_entries_active events sid transport Hk) as Hact.
    split; [done|].
    destruct (registered_is_forwarded _ _ ServerTs_records ServerTs_only_removes
                events sid transport entropy req Hsid Hk)
      as (this & Hthis & _ & _ & Hpost).
    fold ServerTs.run in Hthis. rewrite Hact in Hthis. injection Hthis as <-.
    fold ServerTs.run ServerTs.post in Hpost. rewrite Hpost, Hneg.
    cbn [active session_state andb]. by destruct (isInitializeRequest (body req)).
  - destruct (registered_is_forwarded _ _ Part000_records Part000_only_removes
                events sid transport entropy req Hsid Hk)
      as (this & Hthis & Hown & Hinit & Hpost).
    fold Part000.run in Hthis. fold Part000.run Part000.post in Hpost.
    destruct (initialized_active_or_closed this sid Hown Hinit) as [-> | ->].
    + left. split; [done|]. rewrite Hpost, Hneg. cbn [active session_state andb].
      by destruct (isInitializeRequest (body req)).
    + right. by split.
Qed.

Lemma X4_call_under_the_new_session :
  transports (ServerTs.run [Post 5 hello]).1 !! randomUUID 5 = Some 0%nat
  /\ ServerTs.post (ServerTs.run [Post 5 hello]).1 9%N (call_under (randomUUID 5))
     = ((ServerTs.run [Post 5 hello]).1,
        Forwarded 0 (body (call_under (randomUUID 5)))).
Proof.
  assert (transports (ServerTs.run [Post 5 hello]).1 !! randomUUID 5 = Some 0%nat)
    as HS.
  { rewrite (proj1 (first_session 5)). apply lookup_insert_eq. }
  split; [exact HS|].
  exact (proj2 (proj1 (X4_registered_session_gets_the_request
                         [Post 5 hello] (randomUUID 5) 0%nat 9%N
                         (call_under (randomUUID 5)) eq_refl eq_refl) HS)).
Defined.

(** X5.  In every state the server can reach, a request whose session
    header is not empty, was never issued and is not a name inherited
    from [Object.prototype] finds nothing in the record and is answered
    with 400 and the JSON-RPC error -32000 "Bad Request: No valid
    session"; the server is left as it is, whatever the body.  In both
    files. *)
Theorem X5_unknown_identifier_is_answered_400 :
  forall events sid entropy req,
    mcp_session_id req = Some sid ->
    sid <> "" ->
    existsb (String.eqb sid) Object_prototype = false ->
    (sid ∉ issued (ServerTs.run events).2 ->
     lookup_session (transports (ServerTs.run events).1) sid = Missing
     /\ ServerTs.post (ServerTs.run events).1 entropy req
        = ((ServerTs.run events).1, no_valid_session))
    /\ (sid ∉ issued (Part000.run events).2 ->
        lookup_session (transports (Part000.run events).1) sid = Missing
        /\ Part000.post (Part000.run events).1 entropy req
           = ((Part000.run events).1, no_valid_session)).
Proof.
  intros events sid entropy req Hsid Hne Hproto. split; intros Hfresh.
  - by apply (unknown_identifier_rejected _ _ ServerTs_records ServerTs_only_removes).
  - by apply (unknown_identifier_rejected _ _ Part000_records Part000_only_removes).
Qed.

Lemma X5_stale_identifier_is_answered_400 :
  ServerTs.post (ServerTs.run [Post 5 hello]).1 9%N (call_under "no-such-session")
  = ((ServerTs.run [Post 5 hello]).1, no_valid_session)
  /\ Part000.post (Part000.run [Post 5 hello]).1 9%N (call_under "no-such-session")
     = ((Part000.run [Post 5 hello]).1, no_valid_session).
Proof.
  assert (forall replies, issued replies = [randomUUID 5] ->
                          "no-such-session" ∉ issued replies) as Hfresh.
  { intros replies ->. apply not_elem_of_cons. split; [|apply not_elem_of_nil].
    intros H. vm_compute in H. discriminate H. }
  assert (issued (ServerTs.run [Post 5 hello]).2 = [randomUUID 5]) as HS.
  { by rewrite (proj1 (first_session 5)). }
  assert (issued (Part000.run [Post 5 hello]).2 = [randomUUID 5]) as HP.
  { by rewrite (proj2 (first_session 5)). }
  destruct (X5_unknown_identifier_is_answered_400
              [Post 5 hello] "no-such-session" 9%N (call_under "no-such-session")
              eq_refl ltac:(discriminate) eq_refl) as [H1 H2].
  split; [exact (proj2 (H1 (Hfresh _ HS)))|exact (proj2 (H2 (Hfresh _ HP)))].
Defined.

(** X6.  In [server.ts], once the transport of a registered session has
    closed, its identifier is gone: the read of the record finds nothing
    and a later request under that identifier is answered with the 400
    "No valid session" error, whatever its body, without creating
    anything. *)
Theorem X6_request_after_closure_is_answered_400 :
  forall events sid transport entropy req,
    transports (ServerTs.run events).1 !! sid = Some transport ->
    mcp_session_id req = Some sid ->
    let st' := ServerTs.step (ServerTs.run events) (Close transport) in
    lookup_session (transports st'.1) sid = Missing
    /\ ServerTs.post st'.1 entropy req = (st'.1, no_valid_session).
Proof.
  intros events sid transport entropy req Hk Hsid st'.
  pose proof (ServerTs_closure_removes events sid transport Hk) as Hgone.
  fold st' in Hgone. split; [done|].
  pose proof (run_registered_ok _ _ ServerTs_records ServerTs_only_removes events)
    as Hok.
  destruct (proj1 Hok _ _ Hk) as (this & _ & _ & _ & Hin).
  destruct (issued_shape _ _ ServerTs_records ServerTs_only_removes events sid Hin)
    as [Hne _].
  assert (registered_ok st') as Hok'.
  { by apply step_registered_ok;
      [apply ServerTs_records|apply ServerTs_only_removes|]. }
  unfold ServerTs.post.
  rewrite (identified_request _ st' entropy req sid) by done.
  by rewrite Hgone.
Qed.

Lemma X6_closed_session_is_answered_400 :
  transports (ServerTs.run [Post 5 hello]).1 !! randomUUID 5 = Some 0%nat
  /\ ServerTs.post
       (ServerTs.step (ServerTs.run [Post 5 hello]) (Close 0)).1
       9%N (call_under (randomUUID 5))
     = ((ServerTs.step (ServerTs.run [Post 5 hello]) (Close 0)).1,
        no_valid_session).
Proof.
  assert (transports (ServerTs.run [Post 5 hello]).1 !! randomUUID 5 = Some 0%nat)
    as HS.
  { rewrite (proj1 (first_session 5)). apply lookup_insert_eq. }
  split; [exact HS|].
  exact (proj2 (X6_request_after_closure_is_answered_400
                  [Post 5 hello] (randomUUID 5) 0%nat 9%N
                  (call_under (randomUUID 5)) HS eq_refl)).
Defined.

(** X7.  The [onclose] hook of [server.ts] removes exactly the entry
    under the closing transport's own identifier: every other entry is
    left alone, a transport without an identifier (one that never
    completed its handshake) removes nothing, and closing twice is the
    same as closing once (removing an absent entry is no error). *)
Theorem X7_onclose_removes_its_own_entry_only :
  forall transport transports k,
    ServerTs.onclose transport transports !! k
      = (if present (sessionId transport)
            && bool_decide (sessionId transport = Some k)
         then None else transports !! k)
    /\ ServerTs.onclose transport (ServerTs.onclose transport transports)
       = ServerTs.onclose transport transports.
Proof.
  intros transport transports k. unfold ServerTs.onclose.
  destruct (sessionId transport) as [sid|]; cbn [present andb]; [|done].
  destruct (String.eqb_spec sid "") as [->|Hne]; cbn [negb andb]; [done|].
  change (default "" (Some sid)) with sid. split.
  - rewrite lookup_delete. destruct (decide (sid = k)) as [->|Hk].
    + by rewrite bool_decide_eq_true_2.
    + rewrite bool_decide_eq_false_2; [done|]. by intros [= ->].
  - apply map_eq. intros j. rewrite !lookup_delete. by destruct (decide (sid = j)).
Qed.

(** X8.  Sessions do not interfere: a POST changes the record at most
    under the identifier its generator draws; the entry of every other
    identifier, and what a read of it finds, is the same before and
    after, whatever the request was.  In both files, for every state of
    the record. *)
Theorem X8_request_leaves_other_sessions_alone :
  forall server entropy req k,
    k <> randomUUID entropy ->
    (transports (ServerTs.post server entropy req).1 !! k = transports server !! k
     /\ lookup_session (transports (ServerTs.post server entropy req).1) k
        = lookup_session (transports server) k)
    /\ (transports (Part000.post server entropy req).1 !! k = transports server !! k
        /\ lookup_session (transports (Part000.post server entropy req).1) k
           = lookup_session (transports server) k).
Proof.
  intros server entropy req k Hk.
  pose proof (post_elsewhere _ ServerTs_records server entropy req k Hk) as HS.
  pose proof (post_elsewhere _ Part000_records server entropy req k Hk) as HP.
  fold ServerTs.post in HS. fold Part000.post in HP.
  unfold lookup_session. by rewrite HS, HP.
Qed.

Lemma X8_second_session_leaves_the_first :
  randomUUID 5 <> randomUUID 7
  /\ transports (ServerTs.post (ServerTs.run [Post 5 hello]).1 7%N hello).1
       !! randomUUID 5
     = transports (ServerTs.run [Post 5 hello]).1 !! randomUUID 5.
Proof.
  assert (randomUUID 5 <> randomUUID 7) as Hne.
  { intros H. vm_compute in H. discriminate H. }
  split; [exact Hne|].
  exact (proj1 (proj1 (X8_request_leaves_other_sessions_alone
                         (ServerTs.run [Post 5 hello]).1 7%N hello (randomUUID 5)
                         Hne))).
Defined.

(** X9.  No request evicts a session (there is no idle timeout and no
    limit on the record): in every state the server can reach, a
    registered identifier stays registered across any further sequence
    of POSTs, and the transport it was bound to stays as it is.  The
    identifier stays bound to that transport unless one of the further
    handshakes draws the same identifier again: the record is then
    overwritten with the new transport.  In both files. *)
Theorem X9_requests_never_evict_a_session :
  forall events posts k transport,
    Forall is_post posts ->
    (transports (ServerTs.run events).1 !! k = Some transport ->
     exists transport',
       transports (ServerTs.run (events ++ posts)).1 !! k = Some transport'
       /\ (k ∉ drawn posts -> transport' = transport)
       /\ objects (ServerTs.run (events ++ posts)).1 !! transport
          = objects (ServerTs.run events).1 !! transport)
    /\ (transports (Part000.run events).1 !! k = Some transport ->
        exists transport',
          transports (Part000.run (events ++ posts)).1 !! k = Some transport'
          /\ (k ∉ drawn posts -> transport' = transport)
          /\ objects (Part000.run (events ++ posts)).1 !! transport
             = objects (Part000.run events).1 !! transport).
Proof.
  intros events posts k transport Hposts. split; intros Hk.
  - unfold ServerTs.run, run_with at 1 2. rewrite fold_left_app.
    apply (posts_keep_sessions _ _ ServerTs_records ServerTs_only_removes);
      [done| |done].
    apply run_registered_ok; [apply ServerTs_records|apply ServerTs_only_removes].
  - unfold Part000.run, run_with at 1 2. rewrite fold_left_app.
    apply (posts_keep_sessions _ _ Part000_records Part000_only_removes);
      [done| |done].
    apply run_registered_ok; [apply Part000_records|apply Part000_only_removes].
Qed.

Lemma X9_first_session_survives_traffic :
  Forall is_post [Post 7 (call_under (randomUUID 5)); Post 9 stray;
                  Post 11 (call_under "no-such-session")]
  /\ transports
       (ServerTs.run ([Post 5 hello]
                      ++ [Post 7 (call_under (randomUUID 5)); Post 9 stray;
                          Post 11 (call_under "no-such-session")])).1
       !! randomUUID 5
     = Some 0%nat.
Proof.
  assert (Forall is_post [Post 7 (call_under (randomUUID 5)); Post 9 stray;
                          Post 11 (call_under "no-such-session")])
    as Hposts by (repeat constructor).
  split; [exact Hposts|].
  assert (transports (ServerTs.run [Post 5 hello]).1 !! randomUUID 5 = Some 0%nat)
    as HS.
  { rewrite (proj1 (first_session 5)). apply lookup_insert_eq. }
  destruct (proj1 (X9_requests_never_evict_a_session
                     [Post 5 hello] _ (randomUUID 5) 0%nat Hposts) HS)
    as (transport' & Hk & Hsame & _).
  rewrite Hk. f_equal. apply Hsame. apply not_elem_of_nil.
Defined.

(** X10.  In every state the server can reach, whatever requests and
    closures led to it, an entry of the record is a transport that went
    through its handshake and is stored under its own identifier; that
    identifier was issued by a handshake and is a 36-character UUID, so
    it is never empty and never a name inherited from
    [Object.prototype].  In [server.ts] the transport is active: a
    transport that closes takes its entry with it.  In the second file
    it is active or closed: a closed transport stays in the record. *)
Theorem X10_record_holds_issued_sessions :
  forall events k transport,
    (transports (ServerTs.run events).1 !! k = Some transport ->
     objects (ServerTs.run events).1 !! transport = Some (active k)
     /\ k ∈ issued (ServerTs.run events).2
     /\ String.length k = 36%nat
     /\ lookup_session (transports (ServerTs.run events).1) k = Own transport)
    /\ (transports (Part000.run events).1 !! k = Some transport ->
        (objects (Part000.run events).1 !! transport = Some (active k)
         \/ objects (Part000.run events).1 !! transport = Some (closed k))
        /\ k ∈ issued (Part000.run events).2
        /\ String.length k = 36%nat
        /\ lookup_session (transports (Part000.run events).1) k = Own transport).
Proof.
  intros events k transport. split; intros Hk.
  - destruct (run_registered_ok _ _ ServerTs_records ServerTs_only_removes events)
      as [Hkeys Huuid].
    destruct (Hkeys _ _ Hk) as (this & _ & _ & _ & Hin).
    destruct (Huuid _ Hin) as [e He].
    split; [by apply ServerTs_entries_active|]. split; [done|].
    split; [rewrite He; apply randomUUID_length|by apply registered_slot].
  - destruct (run_registered_ok _ _ Part000_records Part000_only_removes events)
      as [Hkeys Huuid].
    destruct (Hkeys _ _ Hk) as (this & Hthis & Hown & Hinit & Hin).
    destruct (Huuid _ Hin) as [e He].
    split.
    { fold Part000.run in Hthis. rewrite Hthis.
      destruct (initialized_active_or_closed this k Hown Hinit) as [-> | ->]; auto. }
    split; [done|].
    split; [rewrite He; apply randomUUID_length|by apply registered_slot].
Qed.

(** ** What leaves the handlers *)

Lemma put_keys props k v x :
  own props k = Some v -> map fst (put props k x) = map fst props.
Proof.
  induction props as [|[k' v'] props IH]; simpl; [done|].
  destruct (String.eqb k' k); [done|]. intros H. simpl. by rewrite IH.
Qed.

Lemma keys_mask_top k mask c : keys (mask_top k mask c) = keys c.
Proof.
  destruct c; try done. simpl.
  destruct (own props k) as [v|] eqn:Hk; [|done].
  destruct (truthy (Some v)); [|done]. simpl. by eapply put_keys.
Qed.

Lemma masked_is_redacted c : redacted (masked c).
Proof.
  split; intros Ht.
  - rewrite get_masked_email in *.
    destruct (truthy (get c "email")) eqn:He; [done|congruence].
  - rewrite get_masked_phone in *.
    destruct (truthy (get c "phone")) eqn:Hp; [done|congruence].
Qed.

Lemma masked_frame c :
  keys (masked c) = keys c
  /\ forall k, k <> "email" -> k <> "phone" -> get (masked c) k = get c k.
Proof.
  unfold masked. split; [by rewrite !keys_mask_top|].
  intros k He Hp. by rewrite !get_mask_top_ne.
Qed.

Lemma masked_transaction_frame t :
  keys (masked_transaction t) = keys t
  /\ forall k, k <> "customer" -> get (masked_transaction t) k = get t k.
Proof.
  destruct (get t "customer") as [c|] eqn:Hc.
  - destruct t; simpl in Hc; try done.
    rewrite (masked_transaction_obj _ c) by done. simpl. split.
    + by eapply put_keys.
    + intros k Hk. by apply own_put_ne.
  - by rewrite masked_transaction_none.
Qed.

Lemma masked_transaction_customer_inv t c' :
  get (masked_transaction t) "customer" = Some c' ->
  exists c, get t "customer" = Some c /\ c' = masked c.
Proof.
  destruct (get t "customer") as [c|] eqn:Hc.
  - rewrite (masked_transaction_customer t c) by done. intros [= <-]. eauto.
  - rewrite masked_transaction_none by done. congruence.
Qed.

Lemma getCustomer_with_Ok wrap env fetch customer_id content :
  getCustomer_with wrap env fetch customer_id = Ok content ->
  exists r data,
    fetch (getCustomer_url env customer_id) ("Bearer " +:+ PUNCHH_TOKEN env) = Ok r
    /\ ok r = true /\ payload r = Some data /\ content = wrap (masked data).
Proof.
  unfold getCustomer_with.
  destruct (fetch _ _) as [r|e]; simpl; [|done].
  destruct (ok r) eqn:Hok; simpl; [|done].
  unfold r_json. destruct (payload r) as [data|] eqn:Hp; simpl; [|done].
  rewrite redact_customer_eq. simpl. intros [= <-]. by exists r, data.
Qed.

(** X11.  [punchh.getCustomer] returns exactly when the upstream answers
    with a status from 200 to 299 and a JSON body: its redaction never
    fails, whatever the body holds (null, a number, a string, an
    array, an object of any shape).  In both files.  (The identifier is
    well-formed text, given by its UTF-8 bytes, as everywhere here: on a
    lone surrogate [encodeURIComponent] throws before anything is
    fetched.) *)
Theorem X11_getCustomer_returns_on_every_json_answer :
  forall env fetch customer_id,
    let answered :=
      exists r data,
        fetch (getCustomer_url env customer_id) ("Bearer " +:+ PUNCHH_TOKEN env)
          = Ok r
        /\ ok r = true /\ payload r = Some data in
    ((exists content, ServerTs.getCustomer env fetch customer_id = Ok content)
     <-> answered)
    /\ ((exists content, Part000.getCustomer env fetch customer_id = Ok content)
        <-> answered).
Proof.
  intros env fetch customer_id answered. subst answered.
  split; (split;
    [ intros [content H]; apply getCustomer_with_Ok in H as (r & data & ? & ? & ? & _);
      by exists r, data
    | intros (r & data & Hf & Hok & Hp);
      unfold ServerTs.getCustomer, Part000.getCustomer, getCustomer_with;
      rewrite Hf; simpl; rewrite Hok; simpl; unfold r_json; rewrite Hp; simpl;
      rewrite redact_customer_eq; simpl; eauto ]).
Qed.

(** X12.  Whatever the upstream answers, a profile that
    [punchh.getCustomer] returns shows no email and no phone of the
    customer: in the returned payload each of the two top-level fields is
    absent, falsy or the masking value.  In both files. *)
Theorem X12_getCustomer_returns_no_email_and_no_phone :
  forall env fetch customer_id,
    (forall content,
        ServerTs.getCustomer env fetch customer_id = Ok content ->
        redacted (payload_of content))
    /\ (forall content,
          Part000.getCustomer env fetch customer_id = Ok content ->
          redacted (payload_of content)).
Proof.
  intros env fetch customer_id.
  split; intros content H;
    apply getCustomer_with_Ok in H as (r & data & _ & _ & _ & ->);
    apply masked_is_redacted.
Qed.

(** X13.  The redaction of a customer profile changes nothing but the two
    fields: the returned object has the same properties in the same
    order, and every property other than email and phone has the value
    the upstream sent. *)
Theorem X13_redaction_keeps_the_rest_of_the_profile :
  forall data,
    exists data',
      redact_customer data = Ok data'
      /\ keys data' = keys data
      /\ forall k, k <> "email" -> k <> "phone" -> get data' k = get data k.
Proof.
  intros data. exists (masked data).
  split; [apply redact_customer_eq|apply masked_frame].
Qed.

Lemma mapM_null elems :
  forallb (fun t => negb (is_null t)) elems = false ->
  mapM ServerTs.redact_transaction elems = Throw TypeError.
Proof.
  induction elems as [|t elems IH]; simpl; [done|].
  destruct (is_null t) eqn:Hn; simpl.
  - destruct t; done.
  - intros Hrest. rewrite ServerTs_redact_transaction_eq by (by intros ->).
    simpl. by rewrite IH.
Qed.

(** X14.  The redaction loop of [punchh.listTransactions] fails in
    exactly these cases, always with a TypeError: in both files when the
    transactions value is there and is neither null, an array nor a
    string (it cannot be iterated); in [server.ts] also when an element
    of the array is null.  In every other case both files return the same
    payload: the upstream payload with every element's customer
    redacted. *)
Theorem X14_list_redaction_fails_exactly_on_these_payloads :
  forall data,
    Part000.redact_transactions data
      = (if iterable (get data "transactions")
         then Ok (masked_transactions data) else Throw TypeError)
    /\ ServerTs.redact_transactions data
       = (if iterable (get data "transactions")
             && null_free (get data "transactions")
          then Ok (masked_transactions data) else Throw TypeError).
Proof.
  intros data. split.
  - destruct (iterable (get data "transactions")) eqn:Hit.
    + by apply Part000_redact_transactions_eq.
    + unfold Part000.redact_transactions, for_transactions.
      rewrite opt_member_get. by destruct (get data "transactions") as [[]|].
  - destruct (iterable (get data "transactions")) eqn:Hit; cbn [andb].
    + destruct (null_free (get data "transactions")) eqn:Hnf.
      * by apply ServerTs_redact_transactions_eq.
      * unfold ServerTs.redact_transactions, for_transactions.
        rewrite opt_member_get.
        destruct (get data "transactions") as [[| | | |elems|]|]; try done.
        simpl in Hnf. simpl. by rewrite mapM_null.
    + unfold ServerTs.redact_transactions, for_transactions.
      rewrite opt_member_get. by destruct (get data "transactions") as [[]|].
Qed.

Lemma listTransactions_Ok env fetch customer_id limit :
  (forall content,
      ServerTs.listTransactions env fetch customer_id limit = Ok content ->
      exists data, content = JsonContent (masked_transactions data))
  /\ (forall content,
        Part000.listTransactions env fetch customer_id limit = Ok content ->
        exists data, content = TextContent (masked_transactions data)).
Proof.
  split; intros content.
  - unfold ServerTs.listTransactions.
    destruct (fetch _ _) as [r|e]; simpl; [|done].
    destruct (ok r); simpl; [|done].
    unfold r_json. destruct (payload r) as [data|]; simpl; [|done].
    destruct (ServerTs.redact_transactions data) as [data'|e] eqn:H; simpl; [|done].
    destruct (ServerTs_redact_transactions_Ok _ _ H) as [Hit Hnf].
    rewrite ServerTs_redact_transactions_eq in H by done. injection H as <-.
    intros [= <-]. eauto.
  - unfold Part000.listTransactions.
    destruct (fetch _ _) as [r|e]; simpl; [|done].
    destruct (ok r); simpl; [|done].
    unfold r_json. destruct (payload r) as [data|]; simpl; [|done].
    destruct (Part000.redact_transactions data) as [data'|e] eqn:H; simpl; [|done].
    pose proof (for_transactions_Ok_iterable _ _ _ H) as Hit.
    rewrite Part000_redact_transactions_eq in H by done. injection H as <-.
    intros [= <-]. eauto.
Qed.

Lemma masked_transactions_elems data elems :
  get (masked_transactions data) "transactions" = Some (JArr elems) ->
  exists elems0,
    get data "transactions" = Some (JArr elems0)
    /\ elems = map masked_transaction elems0.
Proof.
  rewrite masked_transactions_get.
  destruct (get data "transactions") as [[| | | |elems0|]|]; try done.
  intros [= <-]. eauto.
Qed.

(** X15.  Whatever the upstream answers, a transaction list that
    [punchh.listTransactions] returns shows no email and no phone of a
    customer: in the returned payload, for every element of the
    transactions array, each of the two fields of its customer is
    absent, falsy or the masking value.  In both files. *)
Theorem X15_listTransactions_returns_no_email_and_no_phone :
  forall env fetch customer_id limit elems t c,
    In t elems ->
    get t "customer" = Some c ->
    (forall content,
        ServerTs.listTransactions env fetch customer_id limit = Ok content ->
        get (payload_of content) "transactions" = Some (JArr elems) ->
        redacted c)
    /\ (forall content,
          Part000.listTransactions env fetch customer_id limit = Ok content ->
          get (payload_of content) "transactions" = Some (JArr elems) ->
          redacted c).
Proof.
  intros env fetch customer_id limit elems t c Hin Hc.
  assert (forall data,
             get (masked_transactions data) "transactions" = Some (JArr elems) ->
             redacted c) as Hgen.
  { intros data Hts.
    apply masked_transactions_elems in Hts as (elems0 & _ & ->).
    apply in_map_iff in Hin as (t0 & <- & _).
    apply masked_transaction_customer_inv in Hc as (c0 & _ & ->).
    apply masked_is_redacted. }
  destruct (listTransactions_Ok env fetch customer_id limit) as [HS HP].
  split; intros content H Hts.
  - apply HS in H as [data ->]. by eapply Hgen.
  - apply HP in H as [data ->]. by eapply Hgen.
Qed.

Lemma X15_sample_answer_is_redacted :
  In (masked_transaction (JObj [("id", JStr "t1");
                                ("customer", JObj [("email", JStr "a@b.c");
                                                   ("phone", JStr "5551234")])]))
     (map masked_transaction one_transaction_elems)
  /\ redacted (masked (JObj [("email", JStr "a@b.c"); ("phone", JStr "5551234")])).
Proof.
  assert (In (masked_transaction
                (JObj [("id", JStr "t1");
                       ("customer", JObj [("email", JStr "a@b.c");
                                          ("phone", JStr "5551234")])]))
             (map masked_transaction one_transaction_elems)) as Hin by (by left).
  split; [exact Hin|].
  exact (proj2 (X15_listTransactions_returns_no_email_and_no_phone
                  sandbox upstream_ok "c1" 25%Z _ _ _ Hin eq_refl) _ eq_refl eq_refl).
Defined.

Lemma same_except_masked c : same_except ["email"; "phone"] c (masked c).
Proof.
  destruct (masked_frame c) as [Hkeys Hget]. split; [done|].
  intros k Hk. apply Hget; intros ->; apply Hk.
  - apply list_elem_of_here.
  - apply list_elem_of_further, list_elem_of_here.
Qed.

Lemma same_transaction_masked t : same_transaction t (masked_transaction t).
Proof.
  destruct (masked_transaction_frame t) as [Hkeys Hget]. split.
  - split; [done|]. intros k Hk. apply Hget. intros ->. apply Hk, list_elem_of_here.
  - split; [apply masked_transaction_none|].
    intros c Hc. exists (masked c).
    split; [by apply masked_transaction_customer|].
    split; [apply same_except_masked|].
    intros He Hp. unfold masked. rewrite (mask_top_falsy "email") by done.
    by apply mask_top_falsy.
Qed.

Lemma same_except_masked_transactions data :
  same_except ["transactions"] data (masked_transactions data).
Proof.
  destruct (get data "transactions") as [ts|] eqn:Hts.
  - destruct data; try done. simpl in Hts.
    destruct ts as [| | | |elems|];
      try (unfold masked_transactions; simpl; by rewrite Hts).
    rewrite (masked_transactions_array _ elems) by done. split; simpl.
    + by eapply put_keys.
    + intros k Hk. apply own_put_ne. intros <-. apply Hk, list_elem_of_here.
  - unfold masked_transactions. by rewrite Hts.
Qed.

(** X16.  The redaction loop of [punchh.listTransactions] changes
    nothing but the email and the phone of the customers: whenever it
    returns (in either file), the payload has the same properties in the
    same order with every property other than transactions as the
    upstream sent it; the transactions array has the same length, and
    element by element the same properties in the same order, the same
    values outside customer, and a customer that differs at most in
    email and phone; an element without a customer (any element that is
    not an object) and a customer without a truthy email or phone (any
    customer that is not an object) come back as they are.  A
    transactions value that is not an array is returned as it came. *)
Theorem X16_list_redaction_keeps_everything_else :
  forall data data',
    (Part000.redact_transactions data = Ok data'
     \/ ServerTs.redact_transactions data = Ok data') ->
    same_except ["transactions"] data data'
    /\ (forall elems,
          get data "transactions" = Some (JArr elems) ->
          exists elems',
            get data' "transactions" = Some (JArr elems')
            /\ Forall2 same_transaction elems elems')
    /\ ((forall elems, get data "transactions" <> Some (JArr elems)) ->
        data' = data).
Proof.
  intros data data' H.
  assert (data' = masked_transactions data) as ->.
  { destruct H as [H|H].
    - pose proof (for_transactions_Ok_iterable _ _ _ H) as Hit.
      rewrite Part000_redact_transactions_eq in H by done. congruence.
    - destruct (ServerTs_redact_transactions_Ok _ _ H) as [Hit Hnf].
      rewrite ServerTs_redact_transactions_eq in H by done. congruence. }
  split; [apply same_except_masked_transactions|]. split.
  - intros elems Hts. exists (map masked_transaction elems).
    split; [by rewrite masked_transactions_get, Hts|].
    apply Forall2_fmap_r, Forall_Forall2_diag, Forall_forall.
    intros t _. apply same_transaction_masked.
  - intros Hnot. unfold masked_transactions.
    destruct (get data "transactions") as [[| | | |elems|]|] eqn:Hts; try done.
    by destruct (Hnot elems).
Qed.

Lemma X16_sample_list_keeps_everything_else :
  (Part000.redact_transactions one_transaction
     = Ok (masked_transactions one_transaction)
   \/ ServerTs.redact_transactions one_transaction
      = Ok (masked_transactions one_transaction))
  /\ same_except ["transactions"] one_transaction (masked_transactions one_transaction).
Proof.
  assert (Part000.redact_transactions one_transaction
            = Ok (masked_transactions one_transaction)
          \/ ServerTs.redact_transactions one_transaction
             = Ok (masked_transactions one_transaction)) as H by (by left).
  split; [exact H|].
  exact (proj1 (X16_list_redaction_keeps_everything_else _ _ H)).
Defined.

(** ** The escaped identifier *)

Lemma unescape_unreserved c r :
  unreserved c = true ->
  unescape (String c "" +:+ r) = option_map (String c) (unescape r).
Proof. destruct c as [[] [] [] [] [] [] [] []]; done. Qed.

Lemma unescape_percent c r :
  unreserved c = false ->
  unescape (percent c +:+ r) = option_map (String c) (unescape r).
Proof.
  destruct c as [[] [] [] [] [] [] [] []]; try done; intros _;
    cbn; by destruct (unescape r).
Qed.

Lemma unescape_encodeURIComponent s : unescape (encodeURIComponent s) = Some s.
Proof.
  induction s as [|c s IH]; [done|]. cbn [encodeURIComponent].
  destruct (unreserved c) eqn:Hc.
  - by rewrite unescape_unreserved, IH.
  - by rewrite unescape_percent, IH.
Qed.

Lemma encodeURIComponent_plain s :
  forallb unreserved (list_ascii_of_string s) = true -> encodeURIComponent s = s.
Proof.
  induction s as [|c s IH]; simpl; [done|].
  intros H. apply andb_true_iff in H as [Hc Hs]. by rewrite Hc, IH.
Qed.

Lemma url_safe_without c s :
  unreserved c = false -> Ascii.eqb c "%" = false ->
  url_safe s = true -> without c s = true.
Proof.
  intros Hc Hp. unfold url_safe, without.
  induction s as [|x s IH]; simpl; [done|].
  intros H. apply andb_true_iff in H as [Hx Hs]. rewrite IH by done.
  rewrite andb_true_r. apply negb_true_iff.
  destruct (Ascii.eqb_spec x c) as [->|]; [|done].
  by rewrite Hc, Hp in Hx.
Qed.

(** X17.  [encodeURIComponent], as the handlers use it on the customer
    identifier: the escaped identifier is made of unreserved characters
    and [%XX] only, so it holds no [/], [?], [#] or [&] and cannot add a
    path segment or a query parameter to the upstream URL; it can be
    read back to the identifier, so escaping loses nothing; and an
    identifier of unreserved characters (letters, digits, [-_.!~*'()])
    is sent as it is.  (For an identifier that is well-formed text, given
    by its UTF-8 bytes; a lone surrogate, on which the JavaScript function
    throws a URIError, is no such text.) *)
Theorem X17_escaped_identifier_is_one_path_segment :
  forall customer_id,
    url_safe (encodeURIComponent customer_id) = true
    /\ without "/" (encodeURIComponent customer_id) = true
    /\ without "?" (encodeURIComponent customer_id) = true
    /\ without "#" (encodeURIComponent customer_id) = true
    /\ without "&" (encodeURIComponent customer_id) = true
    /\ unescape (encodeURIComponent customer_id) = Some customer_id
    /\ (forallb unreserved (list_ascii_of_string customer_id) = true ->
        encodeURIComponent customer_id = customer_id).
Proof.
  intros customer_id.
  pose proof (encodeURIComponent_safe customer_id) as Hsafe.
  repeat split; try done; try (by apply url_safe_without).
  - apply unescape_encodeURIComponent.
  - apply encodeURIComponent_plain.
Qed.

Lemma append_cancel (p a b : string) : p +:+ a = p +:+ b -> a = b.
Proof. induction p as [|c p IH]; simpl; [done|]. intros [= H]. by apply IH. Qed.

Lemma encodeURIComponent_inj a b :
  encodeURIComponent a = encodeURIComponent b -> a = b.
Proof.
  intros H. pose proof (unescape_encodeURIComponent a) as Ha.
  rewrite H, unescape_encodeURIComponent in Ha. by injection Ha.
Qed.

Lemma split_at_slash x y r r' :
  without "/" x = true -> without "/" y = true ->
  x +:+ String "/" r = y +:+ String "/" r' -> x = y /\ r = r'.
Proof.
  unfold without. revert y.
  induction x as [|c x IH]; intros [|d y]; simpl.
  - by intros _ _ [= ->].
  - intros _ Hy [= <- _]. done.
  - intros Hx _ [= -> _]. done.
  - intros Hx Hy [= -> H].
    apply andb_true_iff in Hx as [_ Hx]. apply andb_true_iff in Hy as [_ Hy].
    destruct (IH y Hx Hy H) as [-> ->]. done.
Qed.

Lemma Number_toString_inj n m : Number_toString n = Number_toString m -> n = m.
Proof.
  intros H. pose proof (Number_parse_toString n) as Hn.
  rewrite H, Number_parse_toString in Hn. by injection Hn.
Qed.

(** X18.  Where the identifier is escaped, the upstream URL determines
    the request: two calls of [punchh.getCustomer] fetch the same URL
    only for the same customer identifier, and two calls of
    [punchh.listTransactions] of the second file only for the same
    identifier and the same limit.  (Identifiers are well-formed text,
    given by their UTF-8 bytes.) *)
Theorem X18_escaped_urls_tell_customers_apart :
  forall env a b n m,
    (getCustomer_url env a = getCustomer_url env b -> a = b)
    /\ (Part000.listTransactions_url env a n = Part000.listTransactions_url env b m ->
        a = b /\ n = m).
Proof.
  intros env a b n m. split.
  - unfold getCustomer_url. intros H.
    by apply append_cancel, append_cancel, encodeURIComponent_inj in H.
  - unfold Part000.listTransactions_url. intros H.
    apply append_cancel, append_cancel in H.
    change ("/transactions?limit=" +:+ Number_toString n)
      with (String "/" ("transactions?limit=" +:+ Number_toString n)) in H.
    change ("/transactions?limit=" +:+ Number_toString m)
      with (String "/" ("transactions?limit=" +:+ Number_toString m)) in H.
    apply split_at_slash in H as [Hab Hnm];
      [|by apply url_safe_without, encodeURIComponent_safe..].
    split; [by apply encodeURIComponent_inj|].
    by apply append_cancel, Number_toString_inj in Hnm.
Qed.

(** ** Redaction twice, payloads without the two fields, and the list
    handler as a whole *)

(** X19.  Redaction is idempotent in every filter of both files: passing
    a payload through the filter twice gives what one pass gives.  A
    redacted payload comes back unchanged; a pass that throws throws
    again. *)
Theorem X19_redaction_twice_is_redaction_once data :
  (redact_customer data ≫= redact_customer) = redact_customer data
  /\ (Part000.redact_transactions data ≫= Part000.redact_transactions)
     = Part000.redact_transactions data
  /\ (ServerTs.redact_transactions data ≫= ServerTs.redact_transactions)
     = ServerTs.redact_transactions data.
Proof. exact (redaction_idempotent data). Qed.

(** X20.  A payload that has no email and no phone property anywhere comes
    back as it was, property for property: always from the filter of
    [punchh.getCustomer]; from the loop of [punchh.listTransactions]
    provided the loop can run over it (the transactions value is absent,
    null, a string or an array; in [server.ts] an array without a null
    element). *)
Theorem X20_payload_without_the_fields_comes_back data :
  mentions "email" data = false ->
  mentions "phone" data = false ->
  redact_customer data = Ok data
  /\ (iterable (get data "transactions") = true ->
      Part000.redact_transactions data = Ok data)
  /\ (iterable (get data "transactions") = true ->
      null_free (get data "transactions") = true ->
      ServerTs.redact_transactions data = Ok data).
Proof. exact (redaction_identity data). Qed.

Lemma X20_plain_payload_comes_back :
  mentions "email" plain_payload = false
  /\ mentions "phone" plain_payload = false
  /\ redact_customer plain_payload = Ok plain_payload
  /\ Part000.redact_transactions plain_payload = Ok plain_payload
  /\ ServerTs.redact_transactions plain_payload = Ok plain_payload.
Proof.
  destruct (X20_payload_without_the_fields_comes_back
              plain_payload eq_refl eq_refl) as (H1 & H2 & H3).
  split; [reflexivity|]. split; [reflexivity|]. split; [exact H1|].
  split; [exact (H2 eq_refl)|exact (H3 eq_refl eq_refl)].
Defined.

(** X21.  [punchh.listTransactions] returns exactly when the upstream
    answers its URL with a status from 200 to 299 and a JSON body whose
    transactions value the loop can run over: absent, null, a string or
    an array, and in [server.ts] an array without a null element.  (The
    two files ask different URLs for an identifier that needs escaping;
    in the second file the identifier is well-formed text, which
    [encodeURIComponent] accepts.) *)
Theorem X21_listTransactions_returns_exactly_then :
  forall env fetch customer_id limit,
    ((exists content,
         ServerTs.listTransactions env fetch customer_id limit = Ok content)
     <-> exists r data,
           fetch (ServerTs.listTransactions_url env customer_id limit)
             ("Bearer " +:+ PUNCHH_TOKEN env) = Ok r
           /\ ok r = true /\ payload r = Some data
           /\ iterable (get data "transactions") = true
           /\ null_free (get data "transactions") = true)
    /\ ((exists content,
            Part000.listTransactions env fetch customer_id limit = Ok content)
        <-> exists r data,
              fetch (Part000.listTransactions_url env customer_id limit)
                ("Bearer " +:+ PUNCHH_TOKEN env) = Ok r
              /\ ok r = true /\ payload r = Some data
              /\ iterable (get data "transactions") = true).
Proof.
  intros env fetch customer_id limit. split; split.
  - intros [content H]. revert H. unfold ServerTs.listTransactions.
    destruct (fetch _ _) as [r|e]; simpl; [|done].
    destruct (ok r) eqn:Hok; simpl; [|done].
    unfold r_json. destruct (payload r) as [data|] eqn:Hp; simpl; [|done].
    destruct (ServerTs.redact_transactions data) as [data'|e] eqn:H; simpl; [|done].
    destruct (ServerTs_redact_transactions_Ok _ _ H) as [Hit Hnf].
    intros _. by exists r, data.
  - intros (r & data & Hf & Hok & Hp & Hit & Hnf).
    unfold ServerTs.listTransactions. rewrite Hf. simpl. rewrite Hok. simpl.
    unfold r_json. rewrite Hp. simpl.
    rewrite ServerTs_redact_transactions_eq by done. simpl. eauto.
  - intros [content H]. revert H. unfold Part000.listTransactions.
    destruct (fetch _ _) as [r|e]; simpl; [|done].
    destruct (ok r) eqn:Hok; simpl; [|done].
    unfold r_json. destruct (payload r) as [data|] eqn:Hp; simpl; [|done].
    destruct (Part000.redact_transactions data) as [data'|e] eqn:H; simpl; [|done].
    pose proof (for_transactions_Ok_iterable _ _ _ H) as Hit.
    intros _. by exists r, data.
  - intros (r & data & Hf & Hok & Hp & Hit).
    unfold Part000.listTransactions. rewrite Hf. simpl. rewrite Hok. simpl.
    unfold r_json. rewrite Hp. simpl.
    rewrite Part000_redact_transactions_eq by done. simpl. eauto.
Qed.
